(** * Signaling relay: room registry and session handler of [main.py]

    A shallow embedding of [ConnectionManager] and of the body of
    [websocket_endpoint], followed by the properties of the room
    registry and of the message routing.

    Modelling conventions.
    - The two outer dictionaries of the manager are finite maps; the
      inner dictionary of a room ([client_id -> websocket]) is an
      association list in insertion order, because [broadcast_to_room]
      and the [existing_users] comprehension iterate over it.
    - A websocket is an opaque handle.  What the peer receives is
      recorded in the [wire] of the [world], one entry per successful
      [send_json].
    - [await] points are not interleaved: every manager method runs to
      completion (or to its exception) on the world it is given.
    - A Python exception leaves the mutations made so far in place, so
      computations are state-and-error: [world -> result * world]. *)

From Stdlib Require Import String List ZArith Bool Lia.
From stdpp Require Import gmap strings list fin_maps pretty.

Local Open Scope string_scope.
Local Open Scope list_scope.
#[local] Set Warnings "-register-all".

(** ** JSON values and Python dictionaries *)

(** What [receive_json] hands to the handler, and what [send_json]
    takes.  [JNum] carries the integer numbers; a number with a
    fraction is not represented.  [JObj] lists the entries of a decoded
    dictionary, each key once. *)
Inductive json : Type :=
| JNull
| JBool (b : bool)
| JNum (z : Z)
| JStr (s : string)
| JArr (items : list json)
| JObj (fields : list (string * json)).

(** Python truthiness, as tested by [if to_client_id:]. *)
Definition truthy (v : json) : bool :=
  match v with
  | JNull => false
  | JBool b => b
  | JNum z => negb (z =? 0)%Z
  | JStr s => negb (String.eqb s "")
  | JArr items => match items with [] => false | _ => true end
  | JObj fields => match fields with [] => false | _ => true end
  end.

(** Lists and dictionaries cannot be used as a dictionary key. *)
Definition hashable (v : json) : bool :=
  match v with
  | JArr _ | JObj _ => false
  | _ => true
  end.

Module Dict.
(** A dictionary with string keys, in insertion order. *)
Abbreviation t V := (list (string * V)) (only parsing).

Section dict.
Context {V : Type}.
#[local] Abbreviation t := (list (string * V)) (only parsing).

Fixpoint get (k : string) (d : t) : option V :=
  match d with
  | [] => None
  | (k', v) :: d' => if decide (k' = k) then Some v else get k d'
  end.

Definition mem (k : string) (d : t) : bool :=
  match get k d with Some _ => true | None => false end.

(** [d[k] = v]: a present key keeps its position, a new key goes last. *)
Fixpoint set (k : string) (v : V) (d : t) : t :=
  match d with
  | [] => [(k, v)]
  | (k', v') :: d' =>
      if decide (k' = k) then (k, v) :: d' else (k', v') :: set k v d'
  end.

(** [del d[k]], used only under a [k in d] guard. *)
Fixpoint del (k : string) (d : t) : t :=
  match d with
  | [] => []
  | (k', v') :: d' =>
      if decide (k' = k) then del k d' else (k', v') :: del k d'
  end.

Definition keys (d : t) : list string := map fst d.
End dict.
End Dict.

(** A message is the dictionary literal passed to [send_json]. *)
Definition message := Dict.t json.

(** ** The manager and the world around it *)

Definition WebSocket := nat.

(** [{"room": room_id, "name": username, "joined_at": ...}] *)
Record ClientInfo : Type := mkInfo {
  room : string;
  name : json;
  joined_at : string
}.

Record ConnectionManager : Type := mkManager {
  active_rooms : gmap string (Dict.t WebSocket);
  client_info : gmap string ClientInfo
}.

(** [ConnectionManager.__init__] *)
Definition init : ConnectionManager :=
  {| active_rooms := ∅; client_info := ∅ |}.

(** The manager, everything written to the connections so far, and the
    number of [datetime.now()] calls made so far. *)
Record world : Type := mkWorld {
  manager : ConnectionManager;
  wire : list (WebSocket * message);
  ticks : nat
}.

Definition world0 : world := {| manager := init; wire := []; ticks := 0 |}.

(** What the program does not decide: which connections refuse a write
    or the handshake, and what the clock reads at each call. *)
Record transport : Type := mkTransport {
  send_fails : WebSocket → bool;
  accept_fails : WebSocket → bool;
  isoformat_now : nat → string
}.

Inductive exn : Type :=
| WebSocketDisconnect
| KeyError
| TypeError
| AttributeError
| ValueError
| RuntimeError.

Inductive result (A : Type) : Type :=
| Ok (a : A)
| Raise (e : exn).
Arguments Ok {A} a.
Arguments Raise {A} e.

Definition M (A : Type) : Type := world → result A * world.

Definition ret {A} (a : A) : M A := λ w, (Ok a, w).
Definition raise {A} (e : exn) : M A := λ w, (Raise e, w).
Definition bind {A B} (c : M A) (k : A → M B) : M B :=
  λ w, match c w with
       | (Ok a, w') => k a w'
       | (Raise e, w') => (Raise e, w')
       end.

Notation "'let*' x := c 'in' k" := (bind c (λ x, k))
  (at level 10, x name, c at level 100, k at level 200).
Notation "c >> k" := (bind c (λ _, k))
  (at level 65, right associativity).

Definition get_manager : M ConnectionManager := λ w, (Ok (manager w), w).
Definition set_manager (m : ConnectionManager) : M unit :=
  λ w, (Ok tt, {| manager := m; wire := wire w; ticks := ticks w |}).
Definition set_rooms (r : gmap string (Dict.t WebSocket)) : M unit :=
  let* m := get_manager in
  set_manager {| active_rooms := r; client_info := client_info m |}.
Definition set_info (i : gmap string ClientInfo) : M unit :=
  let* m := get_manager in
  set_manager {| active_rooms := active_rooms m; client_info := i |}.

(** [datetime.now().isoformat()] *)
Definition now (tr : transport) : M string :=
  λ w, (Ok (isoformat_now tr (ticks w)),
        {| manager := manager w; wire := wire w; ticks := S (ticks w) |}).

(** [await websocket.accept()] *)
Definition accept (tr : transport) (ws : WebSocket) : M unit :=
  if accept_fails tr ws then raise RuntimeError else ret tt.

(** [await websocket.send_json(message)] *)
Definition send_json (tr : transport) (ws : WebSocket) (msg : message) : M unit :=
  λ w, if send_fails tr ws then (Raise RuntimeError, w)
       else (Ok tt, {| manager := manager w;
                       wire := wire w ++ [(ws, msg)];
                       ticks := ticks w |}).

(** A [for] loop whose body may raise. *)
Fixpoint for_each {A} (body : A → M unit) (l : list A) : M unit :=
  match l with
  | [] => ret tt
  | x :: l' => body x >> for_each body l'
  end.

(** A list comprehension whose element expression may raise. *)
Fixpoint comprehension {A B} (f : A → M B) (l : list A) : M (list B) :=
  match l with
  | [] => ret []
  | x :: l' =>
      let* y := f x in
      let* ys := comprehension f l' in
      ret (y :: ys)
  end.

(** ** [ConnectionManager] *)

Definition broadcast_to_room (tr : transport) (room_id : string)
    (msg : message) (exclude_client_id : option string) : M unit :=
  let* m := get_manager in
  match active_rooms m !! room_id with
  | Some members =>
      for_each (λ '(client_id, websocket),
                  if decide (Some client_id ≠ exclude_client_id)
                  then send_json tr websocket msg
                  else ret tt)
               members
  | None => ret tt
  end.

Definition send_to_client (tr : transport) (client_id : string)
    (msg : message) : M unit :=
  let* m := get_manager in
  match client_info m !! client_id with
  | Some info =>
      match active_rooms m !! room info with
      | Some members =>
          match Dict.get client_id members with
          | Some websocket => send_json tr websocket msg
          | None => ret tt
          end
      | None => ret tt
      end
  | None => ret tt
  end.

Definition relay_message (tr : transport) (from_client_id to_client_id : string)
    (msg : message) : M unit :=
  let* m := get_manager in
  match client_info m !! to_client_id, client_info m !! from_client_id with
  | Some to_info, Some from_info =>
      if decide (room from_info = room to_info)
      then send_to_client tr to_client_id
             (Dict.set "from" (JStr from_client_id) msg)
      else ret tt
  | _, _ => ret tt
  end.

Definition user_joined (client_id : string) (username : json) (ts : string)
  : message :=
  [("type", JStr "user_joined"); ("client_id", JStr client_id);
   ("username", username); ("timestamp", JStr ts)].

Definition user_left (client_id : string) (username : json) (ts : string)
  : message :=
  [("type", JStr "user_left"); ("client_id", JStr client_id);
   ("username", username); ("timestamp", JStr ts)].

Definition existing_user (cid : string) (username : json) : json :=
  JObj [("client_id", JStr cid); ("username", username)].

Definition room_joined (room_id client_id : string) (existing_users : list json)
    (ts : string) : message :=
  [("type", JStr "room_joined"); ("room_id", JStr room_id);
   ("client_id", JStr client_id); ("existing_users", JArr existing_users);
   ("timestamp", JStr ts)].

Definition connect (tr : transport) (websocket : WebSocket)
    (client_id room_id : string) (username : json) : M unit :=
  accept tr websocket >>
  (* Initialize room if not exists *)
  (let* m := get_manager in
   match active_rooms m !! room_id with
   | None => set_rooms (<[room_id := []]> (active_rooms m))
   | Some _ => ret tt
   end) >>
  (* Store connection *)
  (let* m := get_manager in
   match active_rooms m !! room_id with
   | Some members =>
       set_rooms (<[room_id := Dict.set client_id websocket members]>
                    (active_rooms m))
   | None => raise KeyError
   end) >>
  (let* joined := now tr in
   let* m := get_manager in
   set_info (<[client_id := {| room := room_id; name := username;
                               joined_at := joined |}]> (client_info m))) >>
  (* Notify others in room *)
  (let* ts := now tr in
   broadcast_to_room tr room_id (user_joined client_id username ts)
     (Some client_id)) >>
  (* Send room info to new user *)
  let* m := get_manager in
  match active_rooms m !! room_id with
  | None => raise KeyError
  | Some members =>
      let room_clients := Dict.keys members in
      let* existing_users :=
        comprehension
          (λ cid, match client_info m !! cid with
                  | Some info => ret (existing_user cid (name info))
                  | None => raise KeyError
                  end)
          (filter (λ cid, cid ≠ client_id) room_clients) in
      let* ts := now tr in
      send_json tr websocket (room_joined room_id client_id existing_users ts)
  end.

Definition disconnect (tr : transport) (client_id : string) : M unit :=
  let* m := get_manager in
  match client_info m !! client_id with
  | None => ret tt
  | Some info =>
      let room_id := room info in
      (* Remove from room *)
      match active_rooms m !! room_id with
      | Some members =>
          if Dict.mem client_id members then
            set_rooms (<[room_id := Dict.del client_id members]>
                         (active_rooms m)) >>
            (* Notify others *)
            (let* m1 := get_manager in
             match client_info m1 !! client_id with
             | None => raise KeyError
             | Some info1 =>
                 let* ts := now tr in
                 broadcast_to_room tr room_id
                   (user_left client_id (name info1) ts) None
             end) >>
            (* Clean up empty room *)
            let* m2 := get_manager in
            match active_rooms m2 !! room_id with
            | None => raise KeyError
            | Some [] => set_rooms (delete room_id (active_rooms m2))
            | Some (_ :: _) => ret tt
            end
          else ret tt
      | None => ret tt
      end >>
      (* Remove client info *)
      let* m3 := get_manager in
      match client_info m3 !! client_id with
      | None => raise KeyError
      | Some _ => set_info (delete client_id (client_info m3))
      end
  end.

(** ** The session handler, [websocket_endpoint] *)

(** What one [await websocket.receive_json()] yields: a decoded value,
    [WebSocketDisconnect], or another exception (text that is not JSON,
    a connection in the wrong state). *)
Inductive received : Type :=
| Message (data : json)
| Disconnected
| Failed (e : exn).

Definition receive_json (ev : received) : M json :=
  match ev with
  | Message data => ret data
  | Disconnected => raise WebSocketDisconnect
  | Failed e => raise e
  end.

(** [data[k]] *)
Definition subscript (data : json) (k : string) : M json :=
  match data with
  | JObj fields =>
      match Dict.get k fields with
      | Some v => ret v
      | None => raise KeyError
      end
  | _ => raise TypeError
  end.

(** [data.get(k, default)]; only a dictionary has the method. *)
Definition get_or (data : json) (k : string) (default : json) : M json :=
  match data with
  | JObj fields =>
      ret (match Dict.get k fields with Some v => v | None => default end)
  | _ => raise AttributeError
  end.

(** [v == s] for a string literal [s]. *)
Definition is_str (v : json) (s : string) : bool :=
  match v with
  | JStr s' => bool_decide (s' = s)
  | _ => false
  end.

Definition chat (client_id : string) (username message_text : json)
    (ts : string) : message :=
  [("type", JStr "chat"); ("from", JStr client_id); ("username", username);
   ("message", message_text); ("timestamp", JStr ts)].

Definition pong (ts : string) : message :=
  [("type", JStr "pong"); ("timestamp", JStr ts)].

Definition signal (payload signal_type : json) : message :=
  [("type", JStr "signal"); ("signal", payload); ("signal_type", signal_type)].

(** The states of the handler: before the first [receive_json], inside
    the [while True] loop, and after the coroutine has returned. *)
Inductive session : Type :=
| AwaitingJoin
| Active
| Closed.

(** [try: body / except WebSocketDisconnect: handler / except Exception:
    handler].  Both clauses run the same handler (the second also
    prints); the coroutine ends after the handler, also when the handler
    itself raises, and [closed] is the outcome then. *)
Definition try_except {A} (body : M A) (handler : M unit) (closed : A)
    (w : world) : A * world :=
  match body w with
  | (Ok a, w') => (a, w')
  | (Raise _, w') => (closed, snd (handler w'))
  end.

(** The body of one iteration of the [while True] loop, after the receive. *)
Definition dispatch (tr : transport) (websocket : WebSocket)
    (client_id : string) (data : json) : M unit :=
  let* message_type := get_or data "type" JNull in
  if is_str message_type "signal" then
    let* to_client_id := get_or data "to" JNull in
    if truthy to_client_id then
      let* payload := get_or data "signal" JNull in
      let* signal_type := get_or data "signal_type" JNull in
      match to_client_id with
      | JStr to_id =>
          relay_message tr client_id to_id (signal payload signal_type)
      | _ =>
          (* [to_client_id in self.client_info]: the keys are strings *)
          if hashable to_client_id then ret tt else raise TypeError
      end
    else ret tt
  else if is_str message_type "chat" then
    let* m := get_manager in
    match client_info m !! client_id with
    | None => raise KeyError
    | Some info =>
        let* text := get_or data "message" JNull in
        let* ts := now tr in
        broadcast_to_room tr (room info)
          (chat client_id (name info) text ts) None
    end
  else if is_str message_type "ping" then
    let* ts := now tr in
    send_json tr websocket (pong ts)
  else ret tt.

(** A string is held as the bytes of its UTF-8 encoding, and a byte
    [10xxxxxx] continues the character begun before it. *)
Definition continuation (a : Ascii.ascii) : bool :=
  match a with
  | Ascii.Ascii _ _ _ _ _ _ b6 b7 => b7 && negb b6
  end.

(** [s[:n]]: the first [n] characters of [s], each with all its bytes. *)
Fixpoint first_chars (n : nat) (s : string) : string :=
  match s with
  | EmptyString => EmptyString
  | String a s' =>
      if continuation a then String a (first_chars n s')
      else match n with
           | O => EmptyString
           | S n' => String a (first_chars n' s')
           end
  end.

(** Lines 133-137: the first receive and the reading of the request. *)
Inductive first : Type :=
| JoinRequest (room_id username : json)
| Other.

Definition read_first (client_id : string) (ev : received) : M first :=
  let* data := receive_json ev in
  let* ty := subscript data "type" in
  if is_str ty "join" then
    let* room_id := get_or data "room_id" (JStr "default") in
    let* username :=
      get_or data "username"
        (JStr (String.append "User_" (first_chars 6 client_id))) in
    ret (JoinRequest room_id username)
  else ret Other.

(** The handler up to the loop.  [connect] declares [room_id: str]; a
    list or a dictionary fails at the first dictionary test, after the
    handshake, and rooms keyed by a number, a boolean or [null] are not
    modelled: there the outcome is [None]. *)
Definition first_message (tr : transport) (websocket : WebSocket)
    (client_id : string) (ev : received) : M (option session) :=
  let* f := read_first client_id ev in
  match f with
  | JoinRequest (JStr room_id) username =>
      connect tr websocket client_id room_id username >> ret (Some Active)
  | JoinRequest (JArr _) _ | JoinRequest (JObj _) _ =>
      accept tr websocket >> raise TypeError
  | JoinRequest _ _ => ret None
  | Other => ret (Some Closed)
  end.

(** One received event, in the state the handler is in. *)
Definition step (tr : transport) (websocket : WebSocket) (client_id : string)
    (s : session) (ev : received) (w : world) : option (session * world) :=
  match s with
  | AwaitingJoin =>
      match try_except (first_message tr websocket client_id ev)
                       (disconnect tr client_id) (Some Closed) w with
      | (Some s', w') => Some (s', w')
      | (None, _) => None
      end
  | Active =>
      Some (try_except
              (let* data := receive_json ev in
               dispatch tr websocket client_id data >> ret Active)
              (disconnect tr client_id) Closed w)
  | Closed => Some (Closed, w)
  end.

(** A sequence of registry operations, each under the transport
    conditions of its moment. *)
Inductive op : Type :=
| Join (websocket : WebSocket) (client_id room_id : string) (username : json)
| Leave (client_id : string).

Definition apply (tr : transport) (o : op) : M unit :=
  match o with
  | Join websocket client_id room_id username =>
      connect tr websocket client_id room_id username
  | Leave client_id => disconnect tr client_id
  end.

Fixpoint run (ops : list (transport * op)) (w : world) : world :=
  match ops with
  | [] => w
  | (tr, o) :: rest => run rest (snd (apply tr o w))
  end.

(** ** Vocabulary of the properties *)

(** [sends] appended to the wire, nothing else changed. *)
Definition deliver (sends : list (WebSocket * message)) (w : world) : world :=
  {| manager := manager w; wire := wire w ++ sends; ticks := ticks w |}.

Definition with_manager (m : ConnectionManager) (w : world) : world :=
  {| manager := m; wire := wire w; ticks := ticks w |}.

(** The members a broadcast addresses, in iteration order. *)
Definition recipients (exclude : option string) (members : Dict.t WebSocket)
  : Dict.t WebSocket :=
  filter (λ p, Some p.1 ≠ exclude) members.

(** The addressed members reached before the first refused write. *)
Fixpoint reached (tr : transport) (l : Dict.t WebSocket) : Dict.t WebSocket :=
  match l with
  | [] => []
  | (c, ws) :: l' => if send_fails tr ws then [] else (c, ws) :: reached tr l'
  end.

Definition all_up (tr : transport) (l : Dict.t WebSocket) : bool :=
  forallb (λ p, negb (send_fails tr p.2)) l.

Definition fanout (msg : message) (l : Dict.t WebSocket)
  : list (WebSocket * message) :=
  map (λ p, (p.2, msg)) l.

(** The socket stored for [c] in room [r]. *)
Definition socket_of (m : ConnectionManager) (r c : string) : option WebSocket :=
  active_rooms m !! r ≫= Dict.get c.

(** [c] is in the member set of room [r]. *)
Definition in_room (m : ConnectionManager) (c r : string) : Prop :=
  is_Some (socket_of m r c).

(** [c] has a client record. *)
Definition registered (m : ConnectionManager) (c : string) : Prop :=
  is_Some (client_info m !! c).

(** The connection [send_to_client] finds for [c]: the one stored under
    [c] in the room that [c]'s record names. *)
Definition seat_of (m : ConnectionManager) (c : string) : option WebSocket :=
  client_info m !! c ≫= λ info, socket_of m (room info) c.

(** [c] has a record and is in the member set of the room it names. *)
Definition seated (m : ConnectionManager) (c : string) : Prop :=
  is_Some (seat_of m c).

Definition room_of (m : ConnectionManager) (c : string) : option string :=
  room <$> client_info m !! c.

Definition name_of (m : ConnectionManager) (c : string) : json :=
  match client_info m !! c with Some info => name info | None => JNull end.

(** Every entry of a member set has a record, and the record names that
    room. *)
Definition members_recorded (m : ConnectionManager) : Prop :=
  map_Forall (λ r members, Forall (λ p, room_of m p.1 = Some r) members)
             (active_rooms m).

(** Every record is backed by an entry in the member set of its room:
    every registered client is seated. *)
Definition records_seated (m : ConnectionManager) : Prop :=
  map_Forall (λ c info, is_Some (socket_of m (room info) c)) (client_info m).

(** No room is empty. *)
Definition rooms_nonempty (m : ConnectionManager) : Prop :=
  map_Forall (λ _ members, members ≠ []) (active_rooms m).

(** No websocket is stored in two different rooms. *)
Definition sockets_apart (m : ConnectionManager) : Prop :=
  map_Forall (λ r1 l1,
    map_Forall (λ r2 l2,
      r1 = r2 ∨ Forall (λ p1, Forall (λ p2, p1.2 ≠ p2.2) l2) l1)
      (active_rooms m))
    (active_rooms m).

Definition consistent (m : ConnectionManager) : Prop :=
  members_recorded m ∧ records_seated m.

(** No client id is in the member sets of two rooms. *)
Definition at_most_one_room (m : ConnectionManager) : Prop :=
  ∀ c r1 r2, in_room m c r1 → in_room m c r2 → r1 = r2.

#[local] Instance members_recorded_dec m : Decision (members_recorded m).
Proof. unfold members_recorded, room_of. apply _. Defined.
#[local] Instance records_seated_dec m : Decision (records_seated m).
Proof. unfold records_seated, socket_of. apply _. Defined.
#[local] Instance rooms_nonempty_dec m : Decision (rooms_nonempty m).
Proof. unfold rooms_nonempty. apply _. Defined.
#[local] Instance sockets_apart_dec m : Decision (sockets_apart m).
Proof. unfold sockets_apart. apply _. Defined.
#[local] Instance consistent_dec m : Decision (consistent m).
Proof. unfold consistent. apply _. Defined.
#[local] Instance seated_dec m c : Decision (seated m c).
Proof. unfold seated. apply _. Defined.
#[local] Instance registered_dec m c : Decision (registered m c).
Proof. unfold registered. apply _. Defined.
#[local] Instance in_room_dec m c r : Decision (in_room m c r).
Proof. unfold in_room. apply _. Defined.

(** The [existing_users] comprehension fails on the first id without a
    record. *)
Definition existing_users_of (infos : gmap string ClientInfo)
    (cids : list string) : option (list json) :=
  mapM (λ cid, (λ info, existing_user cid (name info)) <$> infos !! cid) cids.


(** ** What [connect] and [disconnect] do, in closed form *)

Definition seated_members (ws : WebSocket) (c r : string)
    (m : ConnectionManager) : list (string * WebSocket) :=
  Dict.set c ws (default [] (active_rooms m !! r)).

(** The manager after lines 29-38 of [connect]. *)
Definition seat (ws : WebSocket) (c r : string) (username : json)
    (ts : string) (m : ConnectionManager) : ConnectionManager :=
  {| active_rooms := <[r := seated_members ws c r m]> (active_rooms m);
     client_info :=
       <[c := {| room := r; name := username; joined_at := ts |}]>
         (client_info m) |}.

(** [connect] after the handshake. *)
Definition joined_outcome (tr : transport) (ws : WebSocket) (c r : string)
    (username : json) (w : world) : result unit * world :=
  let t := ticks w in
  let m' := seat ws c r username (isoformat_now tr t) (manager w) in
  let members' := seated_members ws c r (manager w) in
  let others := recipients (Some c) members' in
  let announced :=
    fanout (user_joined c username (isoformat_now tr (S t)))
           (reached tr others) in
  if all_up tr others then
    match existing_users_of (client_info m')
            (filter (λ cid, cid ≠ c) (Dict.keys members')) with
    | None =>
        (Raise KeyError,
         {| manager := m'; wire := wire w ++ announced; ticks := S (S t) |})
    | Some existing =>
        if send_fails tr ws then
          (Raise RuntimeError,
           {| manager := m'; wire := wire w ++ announced;
              ticks := S (S (S t)) |})
        else
          (Ok tt,
           {| manager := m';
              wire := (wire w ++ announced) ++
                      [(ws, room_joined r c existing
                              (isoformat_now tr (S (S t))))];
              ticks := S (S (S t)) |})
    end
  else
    (Raise RuntimeError,
     {| manager := m'; wire := wire w ++ announced; ticks := S (S t) |}).

Definition connect_outcome (tr : transport) (ws : WebSocket) (c r : string)
    (username : json) (w : world) : result unit * world :=
  if accept_fails tr ws then (Raise RuntimeError, w)
  else joined_outcome tr ws c r username w.

Definition disconnect_outcome (tr : transport) (c : string) (w : world)
  : result unit * world :=
  let m := manager w in
  match client_info m !! c with
  | None => (Ok tt, w)
  | Some info =>
      let forgotten := delete c (client_info m) in
      match active_rooms m !! room info with
      | Some members =>
          if Dict.mem c members then
            let rest := Dict.del c members in
            let msg := user_left c (name info) (isoformat_now tr (ticks w)) in
            if all_up tr rest then
              (Ok tt,
               {| manager :=
                    {| active_rooms :=
                         match rest with
                         | [] => delete (room info) (active_rooms m)
                         | _ :: _ => <[room info := rest]> (active_rooms m)
                         end;
                       client_info := forgotten |};
                  wire := wire w ++ fanout msg rest;
                  ticks := S (ticks w) |})
            else
              (Raise RuntimeError,
               {| manager :=
                    {| active_rooms := <[room info := rest]> (active_rooms m);
                       client_info := client_info m |};
                  wire := wire w ++ fanout msg (reached tr rest);
                  ticks := S (ticks w) |})
          else
            (Ok tt,
             with_manager {| active_rooms := active_rooms m;
                             client_info := forgotten |} w)
      | None =>
          (Ok tt,
           with_manager {| active_rooms := active_rooms m;
                           client_info := forgotten |} w)
      end
  end.


(** ** Predicates that follow the wording of the specification *)

(** Failure isolation of one broadcast: the call returns normally and
    every addressed member whose connection accepts the write finds the
    message among the new sends. *)
Definition isolates_failures (tr : transport) (room_id : string)
    (msg : message) (exclude : option string) (w : world) : Prop :=
  ∃ w', broadcast_to_room tr room_id msg exclude w = (Ok tt, w') ∧
    ∀ members c ws,
      active_rooms (manager w) !! room_id = Some members →
      (c, ws) ∈ recipients exclude members →
      send_fails tr ws = false →
      (ws, msg) ∈ drop (length (wire w)) (wire w').

(** Both ids are registered and both are members of one same room. *)
Definition eligible (m : ConnectionManager) (a b : string) : Prop :=
  registered m a ∧ registered m b ∧ ∃ r, in_room m a r ∧ in_room m b r.

(** The payload with the sender's id under ["from"]. *)
Definition annotated (from_client_id : string) (payload : message) : message :=
  Dict.set "from" (JStr from_client_id) payload.

(** The first message is a join request: a dictionary whose ["type"]
    is ["join"]. *)
Definition join_request (ev : received) : bool :=
  match ev with
  | Message (JObj fields) =>
      match Dict.get "type" fields with
      | Some v => is_str v "join"
      | None => false
      end
  | _ => false
  end.

(** The first message is a dictionary that carries a ["type"]. *)
Definition typed (ev : received) : bool :=
  match ev with
  | Message (JObj fields) => Dict.mem "type" fields
  | _ => false
  end.

(** Along the run, every [Join] is for a client id that has no record
    at that moment. *)
Fixpoint joins_fresh (ops : list (transport * op)) (w : world) : Prop :=
  match ops with
  | [] => True
  | (tr, o) :: rest =>
      match o with
      | Join _ client_id _ _ => client_info (manager w) !! client_id = None
      | Leave _ => True
      end ∧ joins_fresh rest (apply tr o w).2
  end.

(** Along the run, every [Join] brings a connection stored in no room. *)
Fixpoint connections_new (ops : list (transport * op)) (w : world) : Prop :=
  match ops with
  | [] => True
  | (tr, o) :: rest =>
      match o with
      | Join websocket _ _ _ =>
          map_Forall (λ _ members, websocket ∉ members.*2)
                     (active_rooms (manager w))
      | Leave _ => True
      end ∧ connections_new rest (apply tr o w).2
  end.

(** Along the run, every [Leave] returns normally. *)
Fixpoint leaves_return (ops : list (transport * op)) (w : world) : Prop :=
  match ops with
  | [] => True
  | (tr, o) :: rest =>
      match o with
      | Join _ _ _ _ => True
      | Leave client_id => (disconnect tr client_id w).1 = Ok tt
      end ∧ leaves_return rest (apply tr o w).2
  end.

(** ** Concrete scenarios *)

(** Every write and handshake is accepted; the clock reads its own count. *)
Definition calm : transport :=
  {| send_fails := λ _, false;
     accept_fails := λ _, false;
     isoformat_now := λ n, String.append "2024-01-01T00:00:0" (pretty n) |}.

(** As [calm], but the connection [ws] refuses every write. *)
Definition down (ws : WebSocket) : transport :=
  {| send_fails := λ ws', bool_decide (ws' = ws);
     accept_fails := λ _, false;
     isoformat_now := isoformat_now calm |}.

(** [c1] joins ["lobby"] as alice on connection 1. *)
Definition solo : world :=
  run [(calm, Join 1 "c1" "lobby" (JStr "alice"))] world0.

(** [c1] joins ["lobby"] as alice on connection 1, then [c2] as bob on
    connection 2. *)
Definition lobby : world :=
  run [(calm, Join 1 "c1" "lobby" (JStr "alice"));
       (calm, Join 2 "c2" "lobby" (JStr "bob"))] world0.

(** Then [c3] joins ["den"] as carol on connection 3. *)
Definition two_rooms : world :=
  run [(calm, Join 3 "c3" "den" (JStr "carol"))] lobby.

Definition offer : message :=
  [("type", JStr "signal"); ("signal", JStr "offer-blob");
   ("signal_type", JStr "offer")].

(** ** The monitoring endpoint, [list_rooms] *)

(** [{"user_count": len(clients), "users": users}] for one room. *)
Definition room_report (users : list json) (clients : Dict.t WebSocket) : json :=
  JObj [("user_count", JNum (Z.of_nat (length clients)));
        ("users", JArr users)].

(** The response dictionary is returned as a finite map: the order of
    its keys, which follows [active_rooms], is not represented. *)
Definition list_rooms : M (gmap string json) :=
  let* m := get_manager in
  let* entries :=
    comprehension
      (λ '(room_id, clients),
         let* users :=
           comprehension
             (λ cid, match client_info m !! cid with
                     | Some info => ret (existing_user cid (name info))
                     | None => raise KeyError
                     end)
             (Dict.keys clients) in
         ret (room_id, room_report users clients))
      (map_to_list (active_rooms m)) in
  ret (list_to_map entries).

(** ** Vocabulary of the further properties *)

(** One turn of the loop of [list_rooms] as a partial function: the
    entry of the response for one room, unless a member id has no
    record. *)
Definition room_entry (infos : gmap string ClientInfo)
    (entry : string * Dict.t WebSocket) : option (string * json) :=
  (λ users, (entry.1, room_report users entry.2))
    <$> existing_users_of infos (Dict.keys entry.2).

(** The room a join request asks for: ["default"] when it names none;
    nothing when [room_id] is not a string. *)
Definition requested_room (fields : Dict.t json) : option string :=
  match Dict.get "room_id" fields with
  | None => Some "default"
  | Some (JStr room_id) => Some room_id
  | Some _ => None
  end.

(** The display name a join request asks for. *)
Definition requested_name (client_id : string) (fields : Dict.t json) : json :=
  match Dict.get "username" fields with
  | Some v => v
  | None => JStr (String.append "User_" (first_chars 6 client_id))
  end.

(** What the handler does with the outcome of a protected body: go on
    in state [s] when it returned, run [disconnect] and close when it
    raised. *)
Definition settle (tr : transport) (client_id : string) (s : session)
    (outcome : result unit * world) : session * world :=
  match outcome with
  | (Ok _, w') => (s, w')
  | (Raise _, w') => (Closed, (disconnect tr client_id w').2)
  end.

(** The event is a decoded dictionary. *)
Definition carries_dict (ev : received) : bool :=
  match ev with
  | Message (JObj _) => true
  | _ => false
  end.

(** [data.get(k)] on a dictionary. *)
Definition field (k : string) (fields : Dict.t json) : json :=
  match Dict.get k fields with Some v => v | None => JNull end.

(** The entry of a room in the report of [list_rooms]. *)
Definition reported (m : ConnectionManager) (members : Dict.t WebSocket) : json :=
  room_report (map (λ cid, existing_user cid (name_of m cid))
                   (Dict.keys members)) members.

(** An entry without a record: [c1] joins ["lobby"], joins ["den"] under
    the same id, and leaves; its entry in ["lobby"] stays. *)
Definition stale_entry : world :=
  run [(calm, Join 1 "c1" "lobby" (JStr "alice"));
       (calm, Join 2 "c1" "den" (JStr "alice"));
       (calm, Leave "c1")] world0.

(** Handler steps of any number of sessions, one received event each,
    in the order in which they are handled: the transport of the
    moment, the connection and client id of the session, the state it
    is in, and the event.  Nothing if a step is outside the model. *)
Fixpoint serve
    (steps : list (transport * WebSocket * string * session * received))
    (w : world) : option world :=
  match steps with
  | [] => Some w
  | (tr, websocket, client_id, s, ev) :: rest =>
      match step tr websocket client_id s ev w with
      | Some (_, w') => serve rest w'
      | None => None
      end
  end.

(** A join request that asks for a room under a number, a boolean or
    [null]: the events the model does not represent. *)
Definition scalar_room_join (ev : received) : bool :=
  match ev with
  | Message (JObj fields) =>
      is_str (field "type" fields) "join"
      && match Dict.get "room_id" fields with
         | Some JNull | Some (JBool _) | Some (JNum _) => true
         | _ => false
         end
  | _ => false
  end.

(** [c1] joins ["lobby"], [c2] joins ["lobby"], and a second connection
    joins ["den"] under the id [c1], which is still registered. *)
Definition rejoined : world :=
  run [(calm, Join 1 "c1" "lobby" (JStr "alice"));
       (calm, Join 2 "c2" "lobby" (JStr "bob"));
       (calm, Join 3 "c1" "den" (JStr "alice"))] world0.

(** Three clients in ["lobby"]; the leave of [c3] raises on the write
    to [c1] and leaves the record of [c3] behind. *)
Definition stale_record : world :=
  run [(calm, Join 1 "c1" "lobby" (JStr "alice"));
       (calm, Join 2 "c2" "lobby" (JStr "bob"));
       (calm, Join 3 "c3" "lobby" (JStr "carol"));
       (down 1, Leave "c3")] world0.

(** The steps the model represents: all but a first message that is a
    join request for a room under a number, a boolean or [null]. *)
Definition represented (s : session) (ev : received) : bool :=
  match s with
  | AwaitingJoin => negb (scalar_room_join ev)
  | _ => true
  end.
(** ** Dictionaries *)

Section dict_facts.
Context {V : Type}.
Implicit Types (d : Dict.t V) (k : string) (v : V).

Lemma get_elem_of k v d : Dict.get k d = Some v → (k, v) ∈ d.
Proof.
  induction d as [|[k' v'] d IH]; simpl; [done|].
  destruct (decide (k' = k)) as [->|]; intros H.
  - injection H as ->. left.
  - right. auto.
Qed.

Lemma elem_of_get k v d : (k, v) ∈ d → is_Some (Dict.get k d).
Proof.
  induction d as [|[k' v'] d IH]; simpl; intros H.
  - inversion H.
  - destruct (decide (k' = k)); [eauto|].
    apply elem_of_cons in H as [H|H]; [congruence|auto].
Qed.

Lemma get_set_eq k v d : Dict.get k (Dict.set k v d) = Some v.
Proof.
  induction d as [|[k' v'] d IH]; simpl.
  - by rewrite decide_True.
  - destruct (decide (k' = k)); simpl.
    + by rewrite decide_True.
    + by rewrite decide_False.
Qed.

Lemma get_set_ne k k' v d :
  k ≠ k' → Dict.get k' (Dict.set k v d) = Dict.get k' d.
Proof.
  intros Hne. induction d as [|[k0 v0] d IH]; simpl.
  - by rewrite decide_False.
  - destruct (decide (k0 = k)) as [->|]; simpl.
    + by rewrite !decide_False.
    + by rewrite IH.
Qed.

Lemma del_filter k d : Dict.del k d = filter (λ p, p.1 ≠ k) d.
Proof.
  induction d as [|[k' v'] d IH]; cbn [Dict.del]; [done|].
  destruct (decide (k' = k)) as [->|].
  - by rewrite filter_cons_False by (cbn; auto).
  - rewrite filter_cons_True by done. by rewrite IH.
Qed.

Lemma elem_of_del p k d : p ∈ Dict.del k d ↔ p ∈ d ∧ p.1 ≠ k.
Proof. rewrite del_filter, list_elem_of_filter. tauto. Qed.

Lemma get_del_eq k d : Dict.get k (Dict.del k d) = None.
Proof.
  destruct (Dict.get k (Dict.del k d)) as [v|] eqn:E; [|done].
  apply get_elem_of, elem_of_del in E as [_ E]. done.
Qed.

Lemma get_del_ne k k' d : k ≠ k' → Dict.get k' (Dict.del k d) = Dict.get k' d.
Proof.
  intros Hne. induction d as [|[k0 v0] d IH]; simpl; [done|].
  destruct (decide (k0 = k)) as [->|]; simpl.
  - by rewrite decide_False.
  - by rewrite IH.
Qed.

Lemma elem_of_set p k v d : p ∈ Dict.set k v d → p = (k, v) ∨ p ∈ d.
Proof.
  induction d as [|[k' v'] d IH]; cbn [Dict.set].
  - intros H. apply list_elem_of_singleton in H. auto.
  - destruct (decide (k' = k)) as [->|Hne]; intros H;
      apply elem_of_cons in H as [H|H]; auto.
    + right. by right.
    + right. subst p. left.
    + destruct (IH H) as [?|?]; [auto|]. right. by right.
Qed.

Lemma set_not_nil k v d : Dict.set k v d ≠ [].
Proof. destruct d as [|[k' v'] d]; simpl; [done|]. by destruct (decide _). Qed.

Lemma filter_set_other k v d :
  filter (λ p, p.1 ≠ k) (Dict.set k v d) = filter (λ p, p.1 ≠ k) d.
Proof.
  induction d as [|[k' v'] d IH]; cbn [Dict.set].
  - by rewrite filter_cons_False by (cbn; auto).
  - destruct (decide (k' = k)) as [->|Hne].
    + by rewrite !filter_cons_False by (cbn; auto).
    + rewrite !filter_cons_True by done. by rewrite IH.
Qed.

End dict_facts.

(** ** Running the computations *)

Lemma deliver_nil w : deliver [] w = w.
Proof. destruct w. unfold deliver. simpl. by rewrite app_nil_r. Qed.

Lemma deliver_app l1 l2 w : deliver l2 (deliver l1 w) = deliver (l1 ++ l2) w.
Proof. unfold deliver. simpl. by rewrite app_assoc. Qed.

(** The loop of [broadcast_to_room]: the members are served in order up
    to the first write that is refused, which ends the loop with its
    exception. *)
Lemma for_each_send tr msg exclude (members : list (string * WebSocket)) w :
  for_each (λ '(client_id, websocket),
              if decide (Some client_id ≠ exclude)
              then send_json tr websocket msg
              else ret tt) members w
  = (if all_up tr (recipients exclude members)
     then Ok tt else Raise RuntimeError,
     deliver (fanout msg (reached tr (recipients exclude members))) w).
Proof.
  revert w. unfold recipients.
  induction members as [|[c ws] l IH]; intros w.
  - cbn. by rewrite deliver_nil.
  - cbn [for_each]. unfold bind at 1.
    destruct (decide (Some c ≠ exclude)) as [Hin|Hex].
    + rewrite filter_cons_True by done.
      unfold send_json at 1. cbn [all_up forallb reached snd].
      destruct (send_fails tr ws) eqn:Hws; cbn [negb andb].
      * by rewrite deliver_nil.
      * rewrite IH. fold (all_up tr (filter (λ p, Some p.1 ≠ exclude) l)).
        f_equal. fold (deliver [(ws, msg)] w).
        by rewrite deliver_app.
    + rewrite filter_cons_False by done.
      unfold ret at 1. by rewrite IH.
Qed.

Lemma broadcast_to_room_eq tr room_id msg exclude w :
  broadcast_to_room tr room_id msg exclude w =
  match active_rooms (manager w) !! room_id with
  | Some members =>
      (if all_up tr (recipients exclude members)
       then Ok tt else Raise RuntimeError,
       deliver (fanout msg (reached tr (recipients exclude members))) w)
  | None => (Ok tt, w)
  end.
Proof.
  unfold broadcast_to_room, bind, get_manager.
  destruct (active_rooms (manager w) !! room_id); [|done].
  apply for_each_send.
Qed.

Lemma reached_all_up tr l : all_up tr l = true → reached tr l = l.
Proof.
  induction l as [|[c ws] l IH]; cbn; [done|].
  destruct (send_fails tr ws); cbn; [done|]. intros H. by rewrite IH.
Qed.

Lemma comprehension_eq (infos : gmap string ClientInfo) cids w :
  comprehension
    (λ cid, match infos !! cid with
            | Some info => ret (existing_user cid (name info))
            | None => raise KeyError
            end) cids w
  = (match existing_users_of infos cids with
     | Some l => Ok l
     | None => Raise KeyError
     end, w).
Proof.
  unfold existing_users_of.
  induction cids as [|cid l IH]; cbn; [done|].
  unfold bind at 1.
  destruct (infos !! cid) as [info|]; cbn; [|done].
  unfold bind at 1. rewrite IH.
  by destruct (mapM _ l).
Qed.

(** ** Closed forms of [connect] and [disconnect] *)

(** Symbolic execution of a computation on an explicit world. *)
Ltac mrun :=
  cbv [bind get_manager set_rooms set_info set_manager now ret raise accept
       deliver with_manager
       manager active_rooms client_info wire ticks default from_option id].

Lemma connect_eq tr ws c r username w :
  connect tr ws c r username w = connect_outcome tr ws c r username w.
Proof.
  destruct w as [[rooms info] sent t].
  unfold connect_outcome, joined_outcome, seat, seated_members, connect.
  mrun. destruct (accept_fails tr ws); [done|].
  destruct (rooms !! r) as [members|] eqn:Er; mrun.
  - rewrite Er. mrun. rewrite broadcast_to_room_eq. mrun.
    rewrite !lookup_insert_eq.
    destruct (all_up tr _); [|done].
    rewrite (comprehension_eq (<[c:={| room := r; name := username;
                                      joined_at := isoformat_now tr t |}]> info)).
    destruct (existing_users_of _ _); [|done].
    unfold send_json. mrun. by destruct (send_fails tr ws).
  - rewrite lookup_insert_eq. mrun. rewrite insert_insert_eq.
    rewrite broadcast_to_room_eq. mrun.
    rewrite !lookup_insert_eq.
    destruct (all_up tr _); [|done].
    rewrite (comprehension_eq (<[c:={| room := r; name := username;
                                      joined_at := isoformat_now tr t |}]> info)).
    destruct (existing_users_of _ _); [|done].
    unfold send_json. mrun. by destruct (send_fails tr ws).
Qed.

Lemma recipients_None (l : list (string * WebSocket)) : recipients None l = l.
Proof.
  unfold recipients. induction l as [|p l IH]; [done|].
  rewrite filter_cons_True by done. by rewrite IH.
Qed.

Lemma recipients_Some c (l : list (string * WebSocket)) :
  recipients (Some c) l = filter (λ p, p.1 ≠ c) l.
Proof.
  unfold recipients. induction l as [|p l IH]; [done|].
  destruct (decide (p.1 = c)) as [E|E].
  - rewrite !filter_cons_False by (rewrite ?E; auto). done.
  - rewrite !filter_cons_True by congruence. by rewrite IH.
Qed.

Lemma disconnect_eq tr c w :
  disconnect tr c w = disconnect_outcome tr c w.
Proof.
  destruct w as [[rooms infos] sent t].
  unfold disconnect_outcome, disconnect. mrun.
  destruct (infos !! c) as [info|] eqn:Ei; [|done].
  destruct (rooms !! room info) as [members|] eqn:Er; mrun.
  - destruct (Dict.mem c members); mrun.
    + rewrite Ei. mrun. rewrite broadcast_to_room_eq. mrun.
      rewrite lookup_insert_eq, recipients_None.
      destruct (all_up tr (Dict.del c members)) eqn:Hup; [|done].
      rewrite lookup_insert_eq, (reached_all_up _ _ Hup).
      destruct (Dict.del c members); mrun; rewrite Ei; mrun; [|done].
      by rewrite delete_insert_eq.
    + by rewrite Ei.
  - by rewrite Ei.
Qed.

(** ** Broadcast and transport failures *)

Lemma all_up_app tr (l1 l2 : list (string * WebSocket)) : all_up tr (l1 ++ l2) = all_up tr l1 && all_up tr l2.
Proof. unfold all_up. apply forallb_app. Qed.

Lemma reached_stop tr (before after : list (string * WebSocket)) c ws :
  all_up tr before = true → send_fails tr ws = true →
  reached tr (before ++ (c, ws) :: after) = before.
Proof.
  intros Hup Hws. induction before as [|[c0 ws0] l IH]; cbn.
  - by rewrite Hws.
  - cbn in Hup. apply andb_true_iff in Hup as [H0 Hl].
    apply negb_true_iff in H0. rewrite H0. by rewrite IH.
Qed.

(** With every addressed connection accepting the write, the broadcast
    serves all of them, in order, and returns. *)
Lemma broadcast_to_room_all_up tr room_id msg exclude w members :
  active_rooms (manager w) !! room_id = Some members →
  all_up tr (recipients exclude members) = true →
  broadcast_to_room tr room_id msg exclude w
  = (Ok tt, deliver (fanout msg (recipients exclude members)) w).
Proof.
  intros Hr Hup. rewrite broadcast_to_room_eq, Hr, Hup.
  by rewrite reached_all_up.
Qed.

(** C2 (as amended): a refused write is not isolated.  The fan-out
    serves the addressed members in the room's insertion order and ends
    at the first one whose connection refuses the write: the members
    before it have received the message, it and the members after it
    have not, and the exception is raised to the caller of the
    broadcast. *)
Theorem broadcast_to_room_stops_at_first_failure
    tr room_id msg exclude w members
    (before after : list (string * WebSocket)) c ws :
  active_rooms (manager w) !! room_id = Some members →
  recipients exclude members = before ++ (c, ws) :: after →
  all_up tr before = true →
  send_fails tr ws = true →
  broadcast_to_room tr room_id msg exclude w
  = (Raise RuntimeError, deliver (fanout msg before) w).
Proof.
  intros Hr Hsplit Hup Hws.
  rewrite broadcast_to_room_eq, Hr, Hsplit.
  rewrite all_up_app, Hup. cbn [andb all_up forallb snd].
  rewrite Hws. cbn [negb andb].
  by rewrite reached_stop.
Qed.

Lemma broadcast_to_room_stops_at_first_failure_witness :
  broadcast_to_room (down 2) "lobby" offer None
    (run [(calm, Join 3 "c3" "lobby" (JStr "carol"))] lobby)
  = (Raise RuntimeError,
     deliver (fanout offer [("c1", 1)])
       (run [(calm, Join 3 "c3" "lobby" (JStr "carol"))] lobby)).
Proof.
  apply (broadcast_to_room_stops_at_first_failure (down 2) "lobby" offer None
           _ [("c1", 1); ("c2", 2); ("c3", 3)] [("c1", 1)] [("c3", 3)] "c2" 2).
  - vm_compute. reflexivity.
  - vm_compute. reflexivity.
  - vm_compute. reflexivity.
  - vm_compute. reflexivity.
Defined.

(** C2 (as stated) fails: with [c1]'s connection refusing the write,
    the broadcast to ["lobby"] raises and [c2], whose connection is
    fine, receives nothing. *)
Lemma broadcast_to_room_failure_not_isolated :
  broadcast_to_room (down 1) "lobby" offer None lobby
    = (Raise RuntimeError, lobby)
  ∧ ¬ isolates_failures (down 1) "lobby" offer None lobby.
Proof.
  assert (H : broadcast_to_room (down 1) "lobby" offer None lobby
              = (Raise RuntimeError, lobby)) by (vm_compute; reflexivity).
  split; [exact H|].
  intros [w' [Hok _]]. rewrite H in Hok. discriminate.
Qed.

(** ** Point-to-point relay *)

Lemma send_to_client_eq tr c msg w :
  send_to_client tr c msg w =
  match client_info (manager w) !! c with
  | Some info =>
      match socket_of (manager w) (room info) c with
      | Some ws => send_json tr ws msg w
      | None => (Ok tt, w)
      end
  | None => (Ok tt, w)
  end.
Proof.
  destruct w as [[rooms infos] sent t].
  unfold send_to_client, socket_of. mrun.
  destruct (infos !! c) as [info|]; [|done].
  destruct (rooms !! room info) as [l|]; cbn; [|done].
  by destruct (Dict.get c l).
Qed.

Lemma relay_message_eq tr a b msg w :
  relay_message tr a b msg w =
  match client_info (manager w) !! b, client_info (manager w) !! a with
  | Some to_info, Some from_info =>
      if decide (room from_info = room to_info) then
        match socket_of (manager w) (room to_info) b with
        | Some ws => send_json tr ws (annotated a msg) w
        | None => (Ok tt, w)
        end
      else (Ok tt, w)
  | _, _ => (Ok tt, w)
  end.
Proof.
  unfold relay_message. unfold bind, get_manager, ret.
  destruct (client_info (manager w) !! b) as [ti|] eqn:Eb; [|done].
  destruct (client_info (manager w) !! a) as [fi|]; [|done].
  destruct (decide (room fi = room ti)); [|done].
  rewrite send_to_client_eq. by rewrite Eb.
Qed.

Lemma send_json_up tr ws msg w :
  send_fails tr ws = false → send_json tr ws msg w = (Ok tt, deliver [(ws, msg)] w).
Proof. intros H. unfold send_json. by rewrite H. Qed.

Lemma send_json_refused tr ws msg w :
  send_fails tr ws = true → send_json tr ws msg w = (Raise RuntimeError, w).
Proof. intros H. unfold send_json. by rewrite H. Qed.

Lemma annotated_from a payload :
  Dict.get "from" (annotated a payload) = Some (JStr a).
Proof. apply get_set_eq. Qed.

Lemma annotated_other a payload k :
  k ≠ "from" → Dict.get k (annotated a payload) = Dict.get k payload.
Proof. intros H. apply get_set_ne. congruence. Qed.

(** Where members have their records, a member's record names its room. *)
Lemma members_recorded_room m c r :
  members_recorded m → in_room m c r → room_of m c = Some r.
Proof.
  intros Hm [ws Hws]. unfold socket_of in Hws.
  destruct (active_rooms m !! r) as [members|] eqn:Er; [|done].
  cbn in Hws. apply get_elem_of in Hws.
  specialize (Hm r members Er). cbn in Hm.
  rewrite Forall_forall in Hm. apply (Hm _ Hws).
Qed.

Lemma members_recorded_one_room m : members_recorded m → at_most_one_room m.
Proof.
  intros Hm c r1 r2 H1 H2.
  apply (members_recorded_room _ _ _ Hm) in H1, H2. congruence.
Qed.

Lemma seat_of_record m c ws :
  seat_of m c = Some ws ↔
  ∃ info, client_info m !! c = Some info ∧ socket_of m (room info) c = Some ws.
Proof.
  unfold seat_of. destruct (client_info m !! c) as [info|]; cbn.
  - split; [eauto|]. by intros (? & [= <-] & ?).
  - split; [done|]. by intros (? & ? & ?).
Qed.

Lemma records_seated_seated m c :
  records_seated m → registered m c → seated m c.
Proof.
  intros Hs [info Hi]. destruct (Hs c info Hi) as [ws Hws].
  exists ws. apply seat_of_record. eauto.
Qed.



(** ** The session handler *)

Lemma step_active_dict tr ws c fields w :
  step tr ws c Active (Message (JObj fields)) w
  = Some (match dispatch tr ws c (JObj fields) w with
          | (Ok _, w') => (Active, w')
          | (Raise _, w') => (Closed, (disconnect tr c w').2)
          end).
Proof.
  unfold step, try_except, receive_json. unfold bind at 1. unfold ret at 1.
  unfold bind at 1. by destruct (dispatch tr ws c (JObj fields) w) as [[]].
Qed.

Lemma elem_of_fanout msg (l : list (string * WebSocket)) ws :
  (ws, msg) ∈ fanout msg l ↔ ∃ c, (c, ws) ∈ l.
Proof.
  unfold fanout. rewrite list_elem_of_fmap. split.
  - intros [[c ws'] [[= ->] H]]. eauto.
  - intros [c H]. by exists (c, ws).
Qed.

Lemma sockets_apart_elem m r1 r2 l1 l2 c1 c2 ws :
  sockets_apart m →
  active_rooms m !! r1 = Some l1 → active_rooms m !! r2 = Some l2 →
  (c1, ws) ∈ l1 → (c2, ws) ∈ l2 → r1 = r2.
Proof.
  intros Ha H1 H2 E1 E2.
  destruct (Ha r1 l1 H1 r2 l2 H2) as [|Hd]; [done|].
  rewrite Forall_forall in Hd. specialize (Hd _ E1).
  rewrite Forall_forall in Hd. by specialize (Hd _ E2).
Qed.

Lemma all_up_calm l : all_up calm l = true.
Proof. unfold all_up. by induction l as [|p l IH]. Qed.

Lemma read_first_not_join c ev w :
  join_request ev = false →
  read_first c ev w
  = (if typed ev then Ok Other
     else Raise match ev with
                | Message (JObj _) => KeyError
                | Message _ => TypeError
                | Disconnected => WebSocketDisconnect
                | Failed e => e
                end, w).
Proof.
  unfold join_request, typed, read_first, receive_json, subscript, Dict.mem.
  destruct ev as [data| |]; [|done..].
  destruct data as [| | | |items|fields]; try done.
  unfold bind at 1. unfold ret at 1. unfold bind at 1.
  destruct (Dict.get "type" fields) as [v|]; [|done].
  unfold ret at 1. by intros ->.
Qed.

(** C8 (as amended): a first event that is not a join request closes
    the session without this connection being registered.  When the
    first message is a dictionary with a ["type"] other than ["join"],
    the world is left as it was.  When the connection closes first, or
    the message is malformed or carries no ["type"], the handler runs
    [disconnect] for the client id of the connection: that leaves the
    world as it was provided no record exists for that client id. *)
Theorem first_message_not_join tr ws c ev w :
  join_request ev = false →
  (typed ev = true → step tr ws c AwaitingJoin ev w = Some (Closed, w))
  ∧ (typed ev = false →
     step tr ws c AwaitingJoin ev w = Some (Closed, (disconnect tr c w).2))
  ∧ (client_info (manager w) !! c = None →
     step tr ws c AwaitingJoin ev w = Some (Closed, w)).
Proof.
  intros Hnj.
  assert (Hstep : step tr ws c AwaitingJoin ev w
                  = Some (Closed, if typed ev then w
                                  else (disconnect tr c w).2)).
  { unfold step, try_except, first_message. unfold bind at 1.
    rewrite (read_first_not_join _ _ _ Hnj). by destruct (typed ev). }
  rewrite Hstep. split; [by intros ->|]. split; [by intros ->|].
  intros Hnone. destruct (typed ev); [done|].
  rewrite disconnect_eq. unfold disconnect_outcome. cbv zeta.
  by rewrite Hnone.
Qed.

Lemma first_message_not_join_witness :
  (typed (Message (JObj [("type", JStr "chat")])) = true →
   step calm 3 "c3" AwaitingJoin (Message (JObj [("type", JStr "chat")])) lobby
   = Some (Closed, lobby))
  ∧ (typed (Message (JObj [("type", JStr "chat")])) = false →
     step calm 3 "c3" AwaitingJoin (Message (JObj [("type", JStr "chat")])) lobby
     = Some (Closed, (disconnect calm "c3" lobby).2))
  ∧ (client_info (manager lobby) !! "c3" = None →
     step calm 3 "c3" AwaitingJoin (Message (JObj [("type", JStr "chat")])) lobby
     = Some (Closed, lobby)).
Proof.
  apply (first_message_not_join calm 3 "c3"
           (Message (JObj [("type", JStr "chat")])) lobby).
  vm_compute. reflexivity.
Defined.

(** C8 (as stated) fails: a second connection that names the client id
    [c1] and closes before sending anything makes the handler run
    [disconnect "c1"], which removes the registration made by the first
    connection from ["lobby"] and sends [user_left] to [c2]. *)
Lemma first_message_closed_unregisters_namesake :
  join_request Disconnected = false
  ∧ step calm 3 "c1" AwaitingJoin Disconnected lobby ≠ Some (Closed, lobby)
  ∧ socket_of (manager lobby) "lobby" "c1" = Some 1
  ∧ ∃ w', step calm 3 "c1" AwaitingJoin Disconnected lobby = Some (Closed, w')
          ∧ socket_of (manager w') "lobby" "c1" = None
          ∧ client_info (manager w') !! "c1" = None
          ∧ wire w' = wire lobby ++
                      [(2, user_left "c1" (JStr "alice") (isoformat_now calm 6))]
          ∧ w' ≠ lobby.
Proof.
  split; [done|]. split.
  { intros H. apply (f_equal (fmap (λ sw, ticks sw.2))) in H.
    vm_compute in H. discriminate. }
  split; [vm_compute; reflexivity|].
  eexists. split; [vm_compute; reflexivity|].
  split; [vm_compute; reflexivity|].
  split; [vm_compute; reflexivity|].
  split; [vm_compute; reflexivity|].
  intros H. apply (f_equal ticks) in H. vm_compute in H. discriminate.
Qed.

(** ** Joining *)

Lemma keys_filter_ne {V} c (d : list (string * V)) :
  filter (λ cid, cid ≠ c) (Dict.keys d) = Dict.keys (filter (λ p, p.1 ≠ c) d).
Proof.
  unfold Dict.keys. induction d as [|[k v] d IH]; [done|]. cbn [map fst].
  destruct (decide (k = c)) as [->|Hne].
  - by rewrite !filter_cons_False by (cbn; auto).
  - rewrite !filter_cons_True by done. cbn [map fst]. by rewrite IH.
Qed.

Lemma existing_users_of_Some (infos : gmap string ClientInfo) cids :
  Forall (λ cid, is_Some (infos !! cid)) cids →
  existing_users_of infos cids
  = Some (map (λ cid, existing_user cid
                        match infos !! cid with
                        | Some info => name info
                        | None => JNull
                        end) cids).
Proof.
  unfold existing_users_of. induction 1 as [|cid l [info Hi] _ IH]; [done|].
  cbn. rewrite Hi. cbn. by rewrite IH.
Qed.

Lemma existing_users_of_ext (infos infos' : gmap string ClientInfo) cids :
  Forall (λ cid, infos' !! cid = infos !! cid) cids →
  existing_users_of infos' cids = existing_users_of infos cids.
Proof.
  unfold existing_users_of. induction 1 as [|cid l E _ IH]; [done|].
  cbn. by rewrite E, IH.
Qed.

(** ** Invariants of the registry along sequences of operations *)

Lemma connect_manager tr ws c r username w :
  manager (connect tr ws c r username w).2
  = if accept_fails tr ws then manager w
    else seat ws c r username (isoformat_now tr (ticks w)) (manager w).
Proof.
  rewrite connect_eq. unfold connect_outcome, joined_outcome. cbv zeta.
  destruct (accept_fails tr ws); [done|].
  destruct (all_up tr _); [|done].
  destruct (existing_users_of _ _); [|done].
  by destruct (send_fails tr ws).
Qed.

Lemma all_up_false_not_nil tr l : all_up tr l = false → l ≠ [].
Proof. by intros H ->. Qed.

Lemma rooms_nonempty_seat ws c r username ts m :
  rooms_nonempty m → rooms_nonempty (seat ws c r username ts m).
Proof.
  intros H. unfold rooms_nonempty, seat. cbn [active_rooms].
  apply map_Forall_insert_2; [|done]. apply set_not_nil.
Qed.

Lemma rooms_nonempty_connect tr ws c r username w :
  rooms_nonempty (manager w) →
  rooms_nonempty (manager (connect tr ws c r username w).2).
Proof.
  intros H. rewrite connect_manager.
  destruct (accept_fails tr ws); [done|]. by apply rooms_nonempty_seat.
Qed.

Lemma rooms_nonempty_disconnect tr c w :
  rooms_nonempty (manager w) →
  rooms_nonempty (manager (disconnect tr c w).2).
Proof.
  intros H. rewrite disconnect_eq. unfold disconnect_outcome. cbv zeta.
  destruct (client_info (manager w) !! c) as [info|]; [|done].
  destruct (active_rooms (manager w) !! room info) as [members|]; [|done].
  destruct (Dict.mem c members); [|done].
  unfold rooms_nonempty.
  destruct (all_up tr (Dict.del c members)) eqn:Hup; cbn.
  - destruct (Dict.del c members) eqn:Hrest.
    + by apply map_Forall_delete.
    + by apply map_Forall_insert_2.
  - apply map_Forall_insert_2; [|done]. by eapply all_up_false_not_nil.
Qed.

(** C4: after any sequence of [Join] and [Leave] from the empty
    registry, under any behaviour of the transport, every room id in
    [active_rooms] has a non-empty member set. *)
Theorem no_empty_room ops : rooms_nonempty (manager (run ops world0)).
Proof.
  assert (H : ∀ w, rooms_nonempty (manager w) →
                   rooms_nonempty (manager (run ops w))).
  { induction ops as [|[tr o] ops IH]; intros w Hw; [done|].
    cbn [run]. apply IH. destruct o as [ws c r u|c]; cbn [apply].
    - by apply rooms_nonempty_connect.
    - by apply rooms_nonempty_disconnect. }
  apply H. unfold rooms_nonempty. cbn. apply map_Forall_empty.
Qed.

Lemma members_recorded_seat ws c r username ts m :
  members_recorded m → client_info m !! c = None →
  members_recorded (seat ws c r username ts m).
Proof.
  intros Hm Hnone.
  assert (Hother : ∀ r' l' p, active_rooms m !! r' = Some l' → p ∈ l' →
            room_of (seat ws c r username ts m) p.1 = Some r').
  { intros r' l' p Hr' Hp. specialize (Hm r' l' Hr'). cbn in Hm.
    rewrite Forall_forall in Hm. specialize (Hm p Hp).
    unfold room_of, seat in *. cbn [client_info].
    rewrite lookup_insert_ne; [done|]. intros E.
    by rewrite <- E, Hnone in Hm. }
  unfold members_recorded, seat at 1. cbn [active_rooms].
  apply map_Forall_insert_2.
  - apply Forall_forall. intros p Hp. unfold seated_members in Hp.
    apply elem_of_set in Hp as [->|Hp].
    + unfold room_of, seat. cbn [client_info fst].
      by rewrite lookup_insert_eq.
    + destruct (active_rooms m !! r) as [l|] eqn:Er; cbn in Hp.
      * by apply (Hother r l).
      * inversion Hp.
  - intros r' l' Hr'. apply Forall_forall. intros p Hp.
    by apply (Hother r' l').
Qed.

Lemma members_recorded_disconnect tr c w :
  members_recorded (manager w) →
  members_recorded (manager (disconnect tr c w).2).
Proof.
  intros Hm. rewrite disconnect_eq. unfold disconnect_outcome. cbv zeta.
  destruct (client_info (manager w) !! c) as [info|] eqn:Ei; [|done].
  assert (Hrec : ∀ r' l' p, active_rooms (manager w) !! r' = Some l' →
                   p ∈ l' → room_of (manager w) p.1 = Some r').
  { intros r' l' p Hr' Hp. specialize (Hm r' l' Hr'). cbn in Hm.
    rewrite Forall_forall in Hm. by apply Hm. }
  assert (Hforget : ∀ rooms',
    (∀ r' l' p, rooms' !! r' = Some l' → p ∈ l' →
                p.1 ≠ c ∧ room_of (manager w) p.1 = Some r') →
    members_recorded {| active_rooms := rooms';
                        client_info := delete c (client_info (manager w)) |}).
  { intros rooms' H r' l' Hr'. apply Forall_forall. intros p Hp.
    destruct (H r' l' p Hr' Hp) as [Hne Hr]. unfold room_of in *.
    cbn [client_info]. by rewrite lookup_delete_ne. }
  assert (Hrest : ∀ members r' l' p,
    active_rooms (manager w) !! room info = Some members →
    <[room info := Dict.del c members]> (active_rooms (manager w)) !! r'
      = Some l' →
    p ∈ l' → p.1 ≠ c ∧ room_of (manager w) p.1 = Some r').
  { intros members r' l' p Er Hr' Hp.
    destruct (decide (room info = r')) as [<-|Hne].
    - rewrite lookup_insert_eq in Hr'. injection Hr' as <-.
      apply elem_of_del in Hp as [Hp Hpc]. split; [done|].
      by apply (Hrec _ members).
    - rewrite lookup_insert_ne in Hr' by done.
      pose proof (Hrec r' l' p Hr' Hp) as Hp'. split; [|done].
      intros E. unfold room_of in Hp'. rewrite E, Ei in Hp'.
      cbn in Hp'. congruence. }
  assert (Hunseated : ∀ r' l' p,
    (∀ members, active_rooms (manager w) !! room info = Some members →
                Dict.get c members = None) →
    active_rooms (manager w) !! r' = Some l' → p ∈ l' →
    p.1 ≠ c ∧ room_of (manager w) p.1 = Some r').
  { intros r' l' [c' ws'] Hno Hr' Hp.
    pose proof (Hrec r' l' _ Hr' Hp) as Hp'. split; [|done].
    cbn in *. intros ->. unfold room_of in Hp'. rewrite Ei in Hp'.
    injection Hp' as <-. apply elem_of_get in Hp as [x Hx].
    by rewrite (Hno l' Hr') in Hx. }
  destruct (active_rooms (manager w) !! room info) as [members|] eqn:Er.
  - destruct (Dict.mem c members) eqn:Hmem.
    + destruct (all_up tr (Dict.del c members)); cbn [snd manager].
      * apply Hforget. intros r' l' p Hr' Hp.
        apply (Hrest members r' l' p eq_refl); [|done].
        destruct (Dict.del c members) eqn:Hd; [|done].
        destruct (decide (room info = r')) as [<-|Hne].
        -- by rewrite lookup_delete_eq in Hr'.
        -- rewrite lookup_delete_ne in Hr' by done.
           by rewrite lookup_insert_ne.
      * intros r' l' Hr'. apply Forall_forall. intros p Hp.
        cbn [active_rooms] in Hr'.
        by destruct (Hrest members r' l' p eq_refl Hr' Hp).
    + cbn [snd manager with_manager]. apply Hforget.
      intros r' l' p Hr' Hp. apply (Hunseated r' l' p); [|done..].
      intros ? [= <-]. unfold Dict.mem in Hmem.
      by destruct (Dict.get c members).
  - cbn [snd manager with_manager]. apply Hforget.
    intros r' l' p Hr' Hp. by apply (Hunseated r' l' p).
Qed.

Lemma members_recorded_run ops w :
  members_recorded (manager w) → joins_fresh ops w →
  members_recorded (manager (run ops w)).
Proof.
  revert w. induction ops as [|[tr o] ops IH]; intros w Hw Hfresh; [done|].
  cbn [run]. destruct Hfresh as [Ho Hrest]. apply IH; [|done].
  destruct o as [ws c r u|c]; cbn [apply].
  - rewrite connect_manager. destruct (accept_fails tr ws); [done|].
    by apply members_recorded_seat.
  - by apply members_recorded_disconnect.
Qed.

(** C3 (as amended): after any sequence of [Join] and [Leave] from the
    empty registry in which every [Join] is for a client id that has no
    record at that moment, under any behaviour of the transport, no
    client id is in the member sets of two different rooms. *)
Theorem one_room_per_client ops :
  joins_fresh ops world0 → at_most_one_room (manager (run ops world0)).
Proof.
  intros Hfresh. apply members_recorded_one_room.
  apply members_recorded_run; [|done].
  unfold members_recorded. cbn. apply map_Forall_empty.
Qed.

Lemma one_room_per_client_witness :
  at_most_one_room
    (manager (run [(calm, Join 1 "c1" "lobby" (JStr "alice"));
                   (calm, Join 2 "c2" "lobby" (JStr "bob"));
                   (down 1, Leave "c2");
                   (calm, Join 3 "c3" "den" (JStr "carol"))] world0)).
Proof.
  apply (one_room_per_client
           [(calm, Join 1 "c1" "lobby" (JStr "alice"));
            (calm, Join 2 "c2" "lobby" (JStr "bob"));
            (down 1, Leave "c2");
            (calm, Join 3 "c3" "den" (JStr "carol"))]).
  vm_compute. repeat split; reflexivity.
Defined.

(** C3 (as stated) fails: a second [Join] under a client id that is
    still registered, for another room, leaves the id in both member
    sets. *)
Lemma rejoin_leaves_client_in_two_rooms :
  ¬ at_most_one_room
      (manager (run [(calm, Join 1 "c1" "lobby" (JStr "alice"));
                     (calm, Join 2 "c1" "den" (JStr "alice"))] world0)).
Proof.
  intros H.
  assert (E : "lobby" = "den"); [|discriminate].
  apply (H "c1"); apply (bool_decide_unpack _); vm_compute; reflexivity.
Qed.

(** ** Where the hypotheses of the routing properties hold

    Members have their records after joins under client ids without a
    record ([members_recorded_run] above); rooms share no connection
    after joins on new connections; and every registered client is
    seated as long as every leave returns. *)

Lemma records_seated_seat ws c r username ts m :
  records_seated m → records_seated (seat ws c r username ts m).
Proof.
  intros Hs.
  assert (Hold : ∀ c' info', is_Some (socket_of m (room info') c') →
            is_Some (socket_of (seat ws c r username ts m) (room info') c')).
  { intros c' info' [x Hx]. unfold socket_of, seat in *. cbn [active_rooms].
    destruct (decide (r = room info')) as [E|Hne].
    - rewrite <- E in *. rewrite lookup_insert_eq. cbn. unfold seated_members.
      destruct (active_rooms m !! r) as [l|] eqn:Er; cbn in *; [|done].
      destruct (decide (c = c')) as [<-|Hc].
      + rewrite get_set_eq. eauto.
      + rewrite get_set_ne by done. eauto.
    - rewrite lookup_insert_ne by done. eauto. }
  unfold records_seated. unfold seat at 1. cbn [client_info].
  apply map_Forall_insert_2.
  - unfold socket_of, seat. cbn [active_rooms room].
    rewrite lookup_insert_eq. cbn. unfold seated_members.
    rewrite get_set_eq. eauto.
  - intros c' info' Hi. apply Hold. by apply (Hs c' info').
Qed.

Lemma records_seated_disconnect tr c w :
  records_seated (manager w) →
  (disconnect tr c w).1 = Ok tt →
  records_seated (manager (disconnect tr c w).2).
Proof.
  intros Hs. rewrite disconnect_eq. unfold disconnect_outcome. cbv zeta.
  destruct (client_info (manager w) !! c) as [info|] eqn:Ei; [|done].
  assert (Hsame : ∀ rooms',
    (∀ c' info', c' ≠ c → client_info (manager w) !! c' = Some info' →
                 is_Some (rooms' !! room info' ≫= Dict.get c')) →
    records_seated {| active_rooms := rooms';
                      client_info := delete c (client_info (manager w)) |}).
  { intros rooms' H c' info' Hi. cbn [client_info] in Hi.
    apply lookup_delete_Some in Hi as [Hne Hi].
    unfold socket_of. cbn [active_rooms]. by apply H. }
  destruct (active_rooms (manager w) !! room info) as [members|] eqn:Er.
  - destruct (Dict.mem c members).
    + destruct (all_up tr (Dict.del c members)); [|done].
      intros _. cbn [snd manager]. apply Hsame.
      intros c' info' Hne Hi. pose proof (Hs c' info' Hi) as [x Hx].
      unfold socket_of in Hx.
      destruct (decide (room info = room info')) as [E|Hr].
      * rewrite <- E, Er in Hx. cbn in Hx.
        assert (Hrest : Dict.get c' (Dict.del c members) = Some x)
          by (by rewrite get_del_ne).
        destruct (Dict.del c members) as [|p rest] eqn:Hd; [done|].
        rewrite <- E, lookup_insert_eq. cbn. eauto.
      * destruct (Dict.del c members).
        -- rewrite lookup_delete_ne by done. eauto.
        -- rewrite lookup_insert_ne by done. eauto.
    + intros _. cbn [snd manager with_manager]. apply Hsame.
      intros c' info' _ Hi. apply (Hs c' info' Hi).
  - intros _. cbn [snd manager with_manager]. apply Hsame.
    intros c' info' _ Hi. apply (Hs c' info' Hi).
Qed.

Lemma sockets_apart_alt m :
  sockets_apart m ↔
  ∀ r1 r2 l1 l2 p1 p2,
    active_rooms m !! r1 = Some l1 → active_rooms m !! r2 = Some l2 →
    r1 ≠ r2 → p1 ∈ l1 → p2 ∈ l2 → p1.2 ≠ p2.2.
Proof.
  split.
  - intros Ha r1 r2 l1 l2 p1 p2 H1 H2 Hne E1 E2.
    destruct (Ha r1 l1 H1 r2 l2 H2) as [|Hd]; [done|].
    rewrite Forall_forall in Hd. specialize (Hd _ E1).
    rewrite Forall_forall in Hd. by apply Hd.
  - intros H r1 l1 H1 r2 l2 H2. cbn.
    destruct (decide (r1 = r2)) as [|Hne]; [by left|]. right.
    apply Forall_forall. intros p1 E1. apply Forall_forall. intros p2 E2.
    by apply (H r1 r2 l1 l2).
Qed.

Lemma sockets_apart_seat ws c r username ts m :
  sockets_apart m →
  map_Forall (λ _ members, ws ∉ members.*2) (active_rooms m) →
  sockets_apart (seat ws c r username ts m).
Proof.
  intros Ha Hfresh. rewrite sockets_apart_alt in Ha.
  assert (Hin : ∀ r' l' p, active_rooms (seat ws c r username ts m) !! r'
                           = Some l' → p ∈ l' →
            (r' = r ∧ p = (c, ws))
            ∨ ∃ l, active_rooms m !! r' = Some l ∧ p ∈ l).
  { intros r' l' p Hr' Hp. unfold seat in Hr'. cbn [active_rooms] in Hr'.
    destruct (decide (r = r')) as [<-|Hne].
    - rewrite lookup_insert_eq in Hr'. injection Hr' as <-.
      unfold seated_members in Hp. apply elem_of_set in Hp as [->|Hp]; [auto|].
      destruct (active_rooms m !! r) as [l|]; cbn in Hp; [|inversion Hp].
      right. eauto.
    - rewrite lookup_insert_ne in Hr' by done. right. eauto. }
  assert (Hnew : ∀ r' l p, active_rooms m !! r' = Some l → p ∈ l → p.2 ≠ ws).
  { intros r' l p Hr' Hp E. apply (Hfresh r' l Hr').
    apply list_elem_of_fmap. by exists p. }
  apply sockets_apart_alt. intros r1 r2 l1 l2 p1 p2 H1 H2 Hne E1 E2.
  destruct (Hin _ _ _ H1 E1) as [[-> ->]|(l1' & H1' & E1')];
    destruct (Hin _ _ _ H2 E2) as [[-> ->]|(l2' & H2' & E2')].
  - done.
  - cbn. intros E. by apply (Hnew r2 l2' p2).
  - cbn. by apply (Hnew r1 l1' p1).
  - by apply (Ha r1 r2 l1' l2').
Qed.

Lemma disconnect_rooms_shrink tr c w r' l' :
  active_rooms (manager (disconnect tr c w).2) !! r' = Some l' →
  ∃ l, active_rooms (manager w) !! r' = Some l ∧ l' ⊆ l.
Proof.
  rewrite disconnect_eq. unfold disconnect_outcome. cbv zeta.
  assert (Hsame : active_rooms (manager w) !! r' = Some l' →
                  ∃ l, active_rooms (manager w) !! r' = Some l ∧ l' ⊆ l)
    by (intros H; by exists l').
  destruct (client_info (manager w) !! c) as [info|]; [|done].
  destruct (active_rooms (manager w) !! room info) as [members|] eqn:Er;
    [|done].
  destruct (Dict.mem c members); [|done].
  assert (Hins : <[room info := Dict.del c members]> (active_rooms (manager w))
                   !! r' = Some l' →
                 ∃ l, active_rooms (manager w) !! r' = Some l ∧ l' ⊆ l).
  { destruct (decide (room info = r')) as [<-|Hne].
    - rewrite lookup_insert_eq. intros [= <-]. exists members.
      split; [done|]. intros p Hp. by apply elem_of_del in Hp as [Hp _].
    - by rewrite lookup_insert_ne. }
  destruct (all_up tr (Dict.del c members)); cbn [snd manager active_rooms];
    [|done].
  destruct (Dict.del c members); [|done].
  intros H. apply lookup_delete_Some in H as [_ H]. by apply Hsame.
Qed.

Lemma sockets_apart_disconnect tr c w :
  sockets_apart (manager w) →
  sockets_apart (manager (disconnect tr c w).2).
Proof.
  rewrite !sockets_apart_alt. intros Ha r1 r2 l1 l2 p1 p2 H1 H2 Hne E1 E2.
  apply disconnect_rooms_shrink in H1 as (l1' & H1 & S1).
  apply disconnect_rooms_shrink in H2 as (l2' & H2 & S2).
  apply (Ha r1 r2 l1' l2'); auto.
Qed.

Lemma sockets_apart_run ops :
  connections_new ops world0 → sockets_apart (manager (run ops world0)).
Proof.
  assert (H : ∀ w, sockets_apart (manager w) → connections_new ops w →
                   sockets_apart (manager (run ops w))).
  { induction ops as [|[tr o] ops IH]; intros w Hw Ho; [done|].
    cbn [run]. destruct Ho as [Ho Hrest]. apply IH; [|done].
    destruct o as [ws c r u|c]; cbn [apply].
    - rewrite connect_manager. destruct (accept_fails tr ws); [done|].
      by apply sockets_apart_seat.
    - by apply sockets_apart_disconnect. }
  apply H. intros ? ?. cbn. by rewrite lookup_empty.
Qed.

Lemma records_seated_run ops :
  leaves_return ops world0 → records_seated (manager (run ops world0)).
Proof.
  assert (H : ∀ w, records_seated (manager w) → leaves_return ops w →
                   records_seated (manager (run ops w))).
  { induction ops as [|[tr o] ops IH]; intros w Hw Ho; [done|].
    cbn [run]. destruct Ho as [Ho Hrest]. apply IH; [|done].
    destruct o as [ws c r u|c]; cbn [apply].
    - rewrite connect_manager. destruct (accept_fails tr ws); [done|].
      by apply records_seated_seat.
    - by apply records_seated_disconnect. }
  apply H. intros ? ?. cbn. by rewrite lookup_empty.
Qed.

(** X24: Joins under new client ids on new connections, and leaves that
    return, keep the registry consistent and its rooms apart. *)
Theorem orderly_run_well_formed ops :
  joins_fresh ops world0 →
  connections_new ops world0 →
  leaves_return ops world0 →
  consistent (manager (run ops world0))
  ∧ sockets_apart (manager (run ops world0)).
Proof.
  intros Hj Hc Hl. split; [split|].
  - apply members_recorded_run; [|done].
    intros ? ?. cbn. by rewrite lookup_empty.
  - by apply records_seated_run.
  - by apply sockets_apart_run.
Qed.

(** ** Outside the hypotheses: refused writes

    The routing properties above are stated for connections that accept
    the write.  A refused write is an exception like any other: it
    leaves the manager method, and in the handler it ends the session
    of the client whose message was being handled. *)

Lemma relay_message_refused tr a b payload w to_info from_info ws :
  client_info (manager w) !! b = Some to_info →
  client_info (manager w) !! a = Some from_info →
  room from_info = room to_info →
  socket_of (manager w) (room to_info) b = Some ws →
  send_fails tr ws = true →
  relay_message tr a b payload w = (Raise RuntimeError, w).
Proof.
  intros Hb Ha Hr Hws Hdown. rewrite relay_message_eq, Hb, Ha.
  rewrite decide_True by done. rewrite Hws. by apply send_json_refused.
Qed.

(** X23: a ping whose reply the connection refuses ends the session:
    the handler runs [disconnect] for the client and closes. *)
Lemma ping_reply_refused tr ws c fields w :
  Dict.get "type" fields = Some (JStr "ping") →
  send_fails tr ws = true →
  step tr ws c Active (Message (JObj fields)) w
  = Some (Closed,
          (disconnect tr c
             {| manager := manager w; wire := wire w;
                ticks := S (ticks w) |}).2).
Proof.
  intros Hty Hdown. rewrite step_active_dict. f_equal.
  unfold dispatch, get_or. rewrite Hty.
  unfold bind at 1. unfold ret at 1. cbn [is_str].
  rewrite !bool_decide_eq_false_2 by discriminate.
  rewrite bool_decide_eq_true_2 by done.
  unfold bind at 1. unfold now at 1.
  by rewrite send_json_refused.
Qed.


(** * Further properties of the registry and of the handler *)

(** ** What a join and a leave do to the registry *)

Lemma socket_of_seat_eq ws c r username ts m :
  socket_of (seat ws c r username ts m) r c = Some ws.
Proof.
  unfold socket_of, seat, seated_members. cbn [active_rooms].
  rewrite lookup_insert_eq. cbn. apply get_set_eq.
Qed.

Lemma socket_of_seat_ne ws c r username ts m r' c' :
  c' ≠ c →
  socket_of (seat ws c r username ts m) r' c' = socket_of m r' c'.
Proof.
  intros Hne. unfold socket_of, seat, seated_members. cbn [active_rooms].
  destruct (decide (r = r')) as [<-|Hr].
  - rewrite lookup_insert_eq. cbn. rewrite get_set_ne by done.
    by destruct (active_rooms m !! r).
  - by rewrite lookup_insert_ne.
Qed.

Lemma seat_of_seat ws c r username ts m :
  seat_of (seat ws c r username ts m) c = Some ws.
Proof.
  apply seat_of_record. eexists. split.
  - unfold seat. cbn [client_info]. apply lookup_insert_eq.
  - cbn [room]. apply socket_of_seat_eq.
Qed.

(** X1: [connect] registers before it notifies: once the handshake is
    accepted the client has its record (room, display name, time of the
    join) and its connection is the one stored for it, whether or not
    the notifications that follow can be written.  A refused handshake
    leaves the world as it was. *)
Theorem connect_registers tr ws c r username w :
  (accept_fails tr ws = true →
   connect tr ws c r username w = (Raise RuntimeError, w))
  ∧ (accept_fails tr ws = false →
     client_info (manager (connect tr ws c r username w).2) !! c
     = Some {| room := r; name := username;
               joined_at := isoformat_now tr (ticks w) |}
     ∧ seat_of (manager (connect tr ws c r username w).2) c = Some ws).
Proof.
  split; intros Hacc.
  - rewrite connect_eq. unfold connect_outcome. by rewrite Hacc.
  - rewrite connect_manager, Hacc. split; [|apply seat_of_seat].
    unfold seat. cbn [client_info]. apply lookup_insert_eq.
Qed.

Lemma connect_registers_witness :
  client_info (manager (connect (down 1) 2 "c2" "lobby" (JStr "bob") solo).2)
    !! "c2"
  = Some {| room := "lobby"; name := JStr "bob";
            joined_at := isoformat_now (down 1) (ticks solo) |}
  ∧ seat_of (manager (connect (down 1) 2 "c2" "lobby" (JStr "bob") solo).2)
            "c2" = Some 2.
Proof.
  apply (connect_registers (down 1) 2 "c2" "lobby" (JStr "bob") solo).
  reflexivity.
Defined.

(** X2: [connect] touches one record and one entry: the records of the
    other clients, the other rooms, and the connections and the order
    of the members already in the room stay as they were. *)
Theorem connect_frame tr ws c r username w :
  (∀ c', c' ≠ c →
     client_info (manager (connect tr ws c r username w).2) !! c'
     = client_info (manager w) !! c')
  ∧ (∀ r', r' ≠ r →
       active_rooms (manager (connect tr ws c r username w).2) !! r'
       = active_rooms (manager w) !! r')
  ∧ (∀ r' c', c' ≠ c →
       socket_of (manager (connect tr ws c r username w).2) r' c'
       = socket_of (manager w) r' c')
  ∧ (∀ members members',
       active_rooms (manager w) !! r = Some members →
       active_rooms (manager (connect tr ws c r username w).2) !! r
       = Some members' →
       recipients (Some c) members' = recipients (Some c) members).
Proof.
  rewrite connect_manager.
  destruct (accept_fails tr ws).
  { repeat split; try done. intros members members' H H'. congruence. }
  split; [|split; [|split]].
  - intros c' Hne. unfold seat. cbn [client_info].
    by rewrite lookup_insert_ne.
  - intros r' Hne. unfold seat. cbn [active_rooms].
    by rewrite lookup_insert_ne.
  - intros r' c' Hne. by apply socket_of_seat_ne.
  - intros members members' Hr. unfold seat, seated_members.
    cbn [active_rooms]. rewrite lookup_insert_eq, Hr. cbn.
    intros [= <-]. rewrite !recipients_Some. apply filter_set_other.
Qed.

Lemma in_room_recorded m c r :
  members_recorded m → in_room m c r →
  ∃ info, client_info m !! c = Some info ∧ room info = r.
Proof.
  intros Hm Hin. pose proof (members_recorded_room _ _ _ Hm Hin) as H.
  unfold room_of in H. destruct (client_info m !! c) as [info|]; [|done].
  injection H as H. eauto.
Qed.

(** After a [disconnect], returned or raised, the client is in no
    member set. *)
Lemma disconnect_no_entry tr c w :
  members_recorded (manager w) →
  ∀ r, ¬ in_room (manager (disconnect tr c w).2) c r.
Proof.
  intros Hm. rewrite disconnect_eq. unfold disconnect_outcome. cbv zeta.
  destruct (client_info (manager w) !! c) as [info|] eqn:Ei.
  2:{ cbn [snd]. intros r Hin.
      destruct (in_room_recorded _ _ _ Hm Hin) as (? & ? & _). congruence. }
  assert (Hother : ∀ r, r ≠ room info → socket_of (manager w) r c = None).
  { intros r Hne. destruct (socket_of (manager w) r c) eqn:E; [|done].
    destruct (in_room_recorded _ c r Hm) as (i & Hi & Hr); [by eexists|].
    congruence. }
  assert (Hgone : ∀ rooms' infos',
    (∀ r, r ≠ room info → rooms' !! r = active_rooms (manager w) !! r) →
    rooms' !! room info ≫= Dict.get c = None →
    ∀ r, ¬ in_room {| active_rooms := rooms'; client_info := infos' |} c r).
  { intros rooms' infos' Hsame Hnone r [x Hx]. unfold socket_of in Hx.
    cbn [active_rooms] in Hx. destruct (decide (r = room info)) as [->|Hne].
    - by rewrite Hnone in Hx.
    - rewrite Hsame in Hx by done. specialize (Hother r Hne).
      unfold socket_of in Hother. by rewrite Hother in Hx. }
  destruct (active_rooms (manager w) !! room info) as [members|] eqn:Er.
  - destruct (Dict.mem c members) eqn:Hmem.
    + destruct (all_up tr (Dict.del c members)); cbn [snd manager].
      * apply Hgone.
        -- intros r Hne. destruct (Dict.del c members).
           ++ by rewrite lookup_delete_ne.
           ++ by rewrite lookup_insert_ne.
        -- pose proof (get_del_eq c members) as Hdel.
           destruct (Dict.del c members).
           ++ by rewrite lookup_delete_eq.
           ++ by rewrite lookup_insert_eq.
      * apply Hgone.
        -- intros r Hne. by rewrite lookup_insert_ne.
        -- rewrite lookup_insert_eq. cbn. apply get_del_eq.
    + cbn [snd manager with_manager].
      apply Hgone; [done|]. rewrite Er. cbn. unfold Dict.mem in Hmem.
      by destruct (Dict.get c members).
  - cbn [snd manager with_manager]. apply Hgone; [done|]. by rewrite Er.
Qed.

(** X3: [disconnect] removes the entry before it notifies and the record
    after: whatever the transport does, the client is afterwards in no
    member set; its record is gone when the call returned, and is left
    behind when the farewell could not be written. *)
Theorem disconnect_unseats tr c w :
  members_recorded (manager w) →
  (∀ r, ¬ in_room (manager (disconnect tr c w).2) c r)
  ∧ ((disconnect tr c w).1 = Ok tt →
     client_info (manager (disconnect tr c w).2) !! c = None)
  ∧ ((disconnect tr c w).1 ≠ Ok tt →
     client_info (manager (disconnect tr c w).2) !! c
     = client_info (manager w) !! c
     ∧ registered (manager w) c).
Proof.
  intros Hm. split; [by apply disconnect_no_entry|].
  rewrite disconnect_eq. unfold disconnect_outcome. cbv zeta.
  destruct (client_info (manager w) !! c) as [info|] eqn:Ei; [|done].
  destruct (active_rooms (manager w) !! room info) as [members|].
  - destruct (Dict.mem c members).
    + destruct (all_up tr (Dict.del c members)); cbn [fst snd manager].
      * split; [intros _; apply lookup_delete_eq|done].
      * split; [done|]. intros _. split; [done|by eexists].
    + cbn [fst snd manager with_manager].
      split; [intros _; apply lookup_delete_eq|done].
  - cbn [fst snd manager with_manager].
    split; [intros _; apply lookup_delete_eq|done].
Qed.

Lemma disconnect_unseats_witness :
  (∀ r, ¬ in_room (manager (disconnect (down 1) "c2" lobby).2) "c2" r)
  ∧ ((disconnect (down 1) "c2" lobby).1 = Ok tt →
     client_info (manager (disconnect (down 1) "c2" lobby).2) !! "c2" = None)
  ∧ ((disconnect (down 1) "c2" lobby).1 ≠ Ok tt →
     client_info (manager (disconnect (down 1) "c2" lobby).2) !! "c2"
     = client_info (manager lobby) !! "c2"
     ∧ registered (manager lobby) "c2").
Proof.
  apply (disconnect_unseats (down 1) "c2" lobby).
  apply (bool_decide_unpack _). vm_compute. reflexivity.
Defined.

(** X4: [disconnect] touches the leaving client only: the record of every
    other client and the connection stored for it in any room stay as
    they were, whatever the transport does. *)
Theorem disconnect_frame tr c w :
  ∀ c', c' ≠ c →
    client_info (manager (disconnect tr c w).2) !! c'
    = client_info (manager w) !! c'
    ∧ ∀ r, socket_of (manager (disconnect tr c w).2) r c'
           = socket_of (manager w) r c'.
Proof.
  intros c' Hne. rewrite disconnect_eq. unfold disconnect_outcome. cbv zeta.
  destruct (client_info (manager w) !! c) as [info|] eqn:Ei; [|done].
  assert (Hinfo : delete c (client_info (manager w)) !! c'
                  = client_info (manager w) !! c')
    by (by rewrite lookup_delete_ne).
  destruct (active_rooms (manager w) !! room info) as [members|] eqn:Er;
    [|done].
  destruct (Dict.mem c members); [|done].
  assert (Hins : ∀ r,
    <[room info := Dict.del c members]> (active_rooms (manager w)) !! r
      ≫= Dict.get c'
    = active_rooms (manager w) !! r ≫= Dict.get c').
  { intros r. destruct (decide (room info = r)) as [<-|Hr].
    - rewrite lookup_insert_eq, Er. cbn. by apply get_del_ne.
    - by rewrite lookup_insert_ne. }
  destruct (all_up tr (Dict.del c members)); cbn [snd manager client_info];
    [|split; [done|]; intros r; apply Hins].
  split; [done|]. intros r. unfold socket_of. cbn [active_rooms].
  destruct (Dict.del c members) eqn:Hd; [|apply Hins].
  destruct (decide (room info = r)) as [<-|Hr].
  - rewrite lookup_delete_eq, Er. cbn.
    rewrite <- (get_del_ne c c') by done. by rewrite Hd.
  - by rewrite lookup_delete_ne.
Qed.

Lemma disconnect_frame_witness :
  client_info (manager (disconnect calm "c2" lobby).2) !! "c1"
  = client_info (manager lobby) !! "c1"
  ∧ ∀ r, socket_of (manager (disconnect calm "c2" lobby).2) r "c1"
         = socket_of (manager lobby) r "c1".
Proof.
  apply (disconnect_frame calm "c2" lobby "c1"). discriminate.
Defined.

Lemma del_set_fresh {V} c (v : V) (d : list (string * V)) :
  Dict.get c d = None → Dict.del c (Dict.set c v d) = d.
Proof.
  induction d as [|[k x] d IH]; cbn.
  - by rewrite decide_True.
  - destruct (decide (k = c)) as [->|Hne]; [done|]. intros H. cbn.
    rewrite decide_False by done. by rewrite IH.
Qed.

Lemma mem_set {V} c (v : V) (d : list (string * V)) :
  Dict.mem c (Dict.set c v d) = true.
Proof. unfold Dict.mem. by rewrite get_set_eq. Qed.

(** A leave right after the join of a client that had no record: the
    manager is the one from before the join. *)
Lemma leave_after_seat tr c r ws username ts m w1 :
  client_info m !! c = None →
  members_recorded m →
  rooms_nonempty m →
  manager w1 = seat ws c r username ts m →
  all_up tr (default [] (active_rooms m !! r)) = true →
  disconnect tr c w1
  = (Ok tt,
     {| manager := m;
        wire := wire w1 ++
                fanout (user_left c username (isoformat_now tr (ticks w1)))
                       (default [] (active_rooms m !! r));
        ticks := S (ticks w1) |}).
Proof.
  intros Hnone Hm Hne Hw1 Hup.
  assert (Hfresh : Dict.get c (default [] (active_rooms m !! r)) = None).
  { destruct (active_rooms m !! r) as [members|] eqn:Er; [|done]. cbn.
    destruct (Dict.get c members) as [x|] eqn:Hx; [|done].
    destruct (in_room_recorded m c r Hm) as (i & Hi & _); [|congruence].
    exists x. unfold socket_of. by rewrite Er. }
  rewrite disconnect_eq. unfold disconnect_outcome. cbv zeta.
  rewrite Hw1. unfold seat, seated_members.
  cbn [client_info active_rooms room name].
  rewrite !lookup_insert_eq. cbn [room name]. rewrite mem_set.
  rewrite del_set_fresh by done. rewrite Hup.
  do 2 f_equal. destruct m as [rooms infos]. cbn in *. f_equal.
  - destruct (rooms !! r) as [members|] eqn:Er; cbn.
    + destruct members as [|p l]; [by destruct (Hne r [] Er)|].
      rewrite insert_insert_eq. by apply insert_id.
    + rewrite delete_insert_eq. by apply delete_id.
  - rewrite delete_insert_eq. by apply delete_id.
Qed.

(** X5: Join then leave is a round trip on the registry.  In a registry
    whose members all have a record naming their room and which holds
    no empty room, for a client id without a record, a join whose
    handshake is accepted followed by a leave whose farewell the room
    mates accept ends with the manager the join started from, the room
    created for the client deleted again. *)
Theorem join_then_leave_restores tr tr' ws c r username w :
  client_info (manager w) !! c = None →
  members_recorded (manager w) →
  rooms_nonempty (manager w) →
  accept_fails tr ws = false →
  all_up tr' (default [] (active_rooms (manager w) !! r)) = true →
  (disconnect tr' c (connect tr ws c r username w).2).1 = Ok tt
  ∧ manager (disconnect tr' c (connect tr ws c r username w).2).2 = manager w.
Proof.
  intros Hnone Hm Hne Hacc Hup.
  rewrite (leave_after_seat tr' c r ws username
             (isoformat_now tr (ticks w)) (manager w)); try done.
  by rewrite connect_manager, Hacc.
Qed.

Lemma join_then_leave_restores_witness :
  (disconnect calm "c3" (connect (down 1) 3 "c3" "den" (JStr "carol") lobby).2).1
  = Ok tt
  ∧ manager (disconnect calm "c3"
               (connect (down 1) 3 "c3" "den" (JStr "carol") lobby).2).2
    = manager lobby.
Proof.
  apply (join_then_leave_restores (down 1) calm 3 "c3" "den" (JStr "carol")
           lobby).
  - vm_compute. reflexivity.
  - apply (bool_decide_unpack _). vm_compute. reflexivity.
  - apply (bool_decide_unpack _). vm_compute. reflexivity.
  - reflexivity.
  - apply all_up_calm.
Defined.

(** ** What a broadcast and a directed send can reach *)

Lemma reached_subseteq tr (l : list (string * WebSocket)) : reached tr l ⊆ l.
Proof.
  induction l as [|[c ws] l IH]; cbn; [done|].
  destruct (send_fails tr ws).
  - intros p Hp. inversion Hp.
  - intros p Hp. apply elem_of_cons in Hp as [->|Hp]; [left|right; auto].
Qed.

(** X6: [broadcast_to_room] only appends to the wire: the registry and the
    clock are as before; every write carries the given message and goes
    to a connection stored in that room under an id other than the
    excluded one; and a room id that is not in [active_rooms] is a
    no-op that returns. *)
Theorem broadcast_to_room_frame tr room_id msg exclude w :
  (active_rooms (manager w) !! room_id = None →
   broadcast_to_room tr room_id msg exclude w = (Ok tt, w))
  ∧ ∃ sends,
      (broadcast_to_room tr room_id msg exclude w).2 = deliver sends w
      ∧ ∀ ws msg', (ws, msg') ∈ sends →
          msg' = msg
          ∧ ∃ members c,
              active_rooms (manager w) !! room_id = Some members
              ∧ (c, ws) ∈ members ∧ Some c ≠ exclude.
Proof.
  rewrite broadcast_to_room_eq.
  destruct (active_rooms (manager w) !! room_id) as [members|] eqn:Er.
  - split; [done|]. eexists. split; [reflexivity|].
    intros ws msg' Hin. unfold fanout in Hin.
    apply list_elem_of_fmap in Hin as [[c ws'] [[= -> ->] Hin]].
    split; [done|]. exists members, c. split; [done|].
    apply reached_subseteq in Hin. unfold recipients in Hin.
    by apply list_elem_of_filter in Hin as [Hne Hin].
  - split; [done|]. exists []. split; [by rewrite deliver_nil|].
    intros ws msg' Hin. inversion Hin.
Qed.




(** ** The monitoring endpoint *)

Lemma comprehension_option {A B} (body : A → M B) (f : A → option B)
    (e : exn) l w :
  (∀ x w', body x w'
           = (match f x with Some y => Ok y | None => Raise e end, w')) →
  comprehension body l w
  = (match mapM f l with Some ys => Ok ys | None => Raise e end, w).
Proof.
  intros Hbody. induction l as [|x l IH]; cbn; [done|].
  unfold bind at 1. rewrite Hbody.
  destruct (f x) as [y|]; cbn; [|done].
  unfold bind at 1. rewrite IH. by destruct (mapM f l).
Qed.

Lemma list_rooms_eq w :
  list_rooms w
  = (match mapM (room_entry (client_info (manager w)))
                (map_to_list (active_rooms (manager w))) with
     | Some entries => Ok (list_to_map entries)
     | None => Raise KeyError
     end, w).
Proof.
  unfold list_rooms. unfold bind at 1. unfold get_manager at 1.
  unfold bind at 1.
  rewrite (comprehension_option _ (room_entry (client_info (manager w)))
             KeyError).
  - by destruct (mapM _ _).
  - intros [room_id clients] w'. unfold bind at 1.
    rewrite comprehension_eq. unfold room_entry. cbn [fst snd].
    by destruct (existing_users_of _ _).
Qed.

Lemma mapM_total {A B} (f : A → option B) (g : A → B) l :
  Forall (λ x, f x = Some (g x)) l → mapM f l = Some (g <$> l).
Proof.
  induction 1 as [|x l Hx _ IH]; [done|]. cbn. rewrite Hx. cbn.
  by rewrite IH.
Qed.

Lemma room_entry_recorded m r members :
  members_recorded m → active_rooms m !! r = Some members →
  room_entry (client_info m) (r, members) = Some (r, reported m members).
Proof.
  intros Hm Hr. unfold room_entry, reported. cbn [fst snd].
  rewrite existing_users_of_Some; [done|].
  specialize (Hm r members Hr). cbn in Hm.
  apply Forall_forall. intros cid Hcid. unfold Dict.keys in Hcid.
  apply list_elem_of_fmap in Hcid as [p [-> Hp]].
  rewrite Forall_forall in Hm. specialize (Hm p Hp). unfold room_of in Hm.
  by destruct (client_info m !! p.1).
Qed.

Lemma list_rooms_recorded w :
  members_recorded (manager w) →
  list_rooms w
  = (Ok (reported (manager w) <$> active_rooms (manager w)), w).
Proof.
  intros Hm. rewrite list_rooms_eq.
  rewrite (mapM_total _ (prod_map id (reported (manager w)))).
  - by rewrite list_to_map_fmap, list_to_map_to_list.
  - apply Forall_forall. intros [r members] Hin.
    apply elem_of_map_to_list in Hin. by apply room_entry_recorded.
Qed.



(** X9: [list_rooms] raises [KeyError] as soon as some room holds a member
    id without a record, which is what a join under an id that is still
    registered, followed by a leave, produces. *)
Theorem list_rooms_raises_on_entry_without_record w r members c ws :
  active_rooms (manager w) !! r = Some members →
  (c, ws) ∈ members →
  client_info (manager w) !! c = None →
  list_rooms w = (Raise KeyError, w).
Proof.
  intros Hr Hin Hnone. rewrite list_rooms_eq.
  rewrite (mapM_None_2 _ (map_to_list (active_rooms (manager w)))); [done|].
  apply Exists_exists. exists (r, members).
  split; [by apply elem_of_map_to_list|].
  unfold room_entry. cbn [fst snd].
  assert (E : existing_users_of (client_info (manager w)) (Dict.keys members)
              = None); [|by rewrite E].
  unfold existing_users_of. apply mapM_None_2, Exists_exists. exists c.
  split; [|by rewrite Hnone].
  unfold Dict.keys. apply list_elem_of_fmap. by exists (c, ws).
Qed.

Lemma list_rooms_raises_on_entry_without_record_witness :
  list_rooms stale_entry = (Raise KeyError, stale_entry).
Proof.
  apply (list_rooms_raises_on_entry_without_record stale_entry
           "lobby" [("c1", 1)] "c1" 1).
  - vm_compute. reflexivity.
  - left.
  - vm_compute. reflexivity.
Defined.

Lemma rooms_nonempty_run ops w :
  rooms_nonempty (manager w) → rooms_nonempty (manager (run ops w)).
Proof.
  revert w. induction ops as [|[tr o] ops IH]; intros w Hw; [done|].
  cbn [run]. apply IH. destruct o as [ws c r u|c]; cbn [apply].
  - by apply rooms_nonempty_connect.
  - by apply rooms_nonempty_disconnect.
Qed.

(** X10: After any sequence of joins and leaves from the empty registry in
    which every join is for a client id without a record, whatever the
    transport did, [list_rooms] returns, and every room it reports has
    at least one user and as many listed users as its [user_count]. *)
Theorem list_rooms_after_fresh_joins ops :
  joins_fresh ops world0 →
  ∃ report,
    list_rooms (run ops world0) = (Ok report, run ops world0)
    ∧ ∀ r v, report !! r = Some v →
        ∃ n users,
          v = JObj [("user_count", JNum (Z.of_nat n)); ("users", JArr users)]
          ∧ (1 ≤ n)%nat ∧ length users = n.
Proof.
  intros Hfresh.
  assert (Hm : members_recorded (manager (run ops world0))).
  { apply members_recorded_run; [|done].
    intros ? ?. cbn. by rewrite lookup_empty. }
  assert (Hne : rooms_nonempty (manager (run ops world0))).
  { apply rooms_nonempty_run. intros ? ?. cbn. by rewrite lookup_empty. }
  eexists. split; [by apply list_rooms_recorded|].
  intros r v. rewrite lookup_fmap.
  destruct (active_rooms (manager (run ops world0)) !! r) as [members|] eqn:Er;
    [|done].
  cbn. intros [= <-]. exists (length members). eexists.
  split; [reflexivity|]. split.
  - specialize (Hne r members Er). cbn in Hne.
    destruct members; [done|]. cbn. lia.
  - unfold Dict.keys. by rewrite !length_map.
Qed.

Lemma list_rooms_after_fresh_joins_witness :
  ∃ report,
    list_rooms (run [(calm, Join 1 "c1" "lobby" (JStr "alice"));
                     (down 1, Join 2 "c2" "lobby" (JStr "bob"));
                     (down 1, Leave "c2")] world0)
    = (Ok report,
       run [(calm, Join 1 "c1" "lobby" (JStr "alice"));
            (down 1, Join 2 "c2" "lobby" (JStr "bob"));
            (down 1, Leave "c2")] world0)
    ∧ ∀ r v, report !! r = Some v →
        ∃ n users,
          v = JObj [("user_count", JNum (Z.of_nat n)); ("users", JArr users)]
          ∧ (1 ≤ n)%nat ∧ length users = n.
Proof.
  apply (list_rooms_after_fresh_joins
           [(calm, Join 1 "c1" "lobby" (JStr "alice"));
            (down 1, Join 2 "c2" "lobby" (JStr "bob"));
            (down 1, Leave "c2")]).
  vm_compute. tauto.
Defined.

(** ** The loop of the handler *)

Lemma step_active_settle tr ws c fields w :
  step tr ws c Active (Message (JObj fields)) w
  = Some (settle tr c Active (dispatch tr ws c (JObj fields) w)).
Proof.
  rewrite step_active_dict. unfold settle.
  by destruct (dispatch tr ws c (JObj fields) w) as [[[]|] ?].
Qed.

Lemma step_active_no_dict tr ws c ev w :
  carries_dict ev = false →
  step tr ws c Active ev w = Some (Closed, (disconnect tr c w).2).
Proof.
  intros Hev. unfold step, try_except, receive_json.
  destruct ev as [data| |e]; [|done..].
  unfold bind at 1. unfold ret at 1. unfold bind at 1.
  by destruct data.
Qed.

Lemma is_str_true v s : is_str v s = true ↔ v = JStr s.
Proof.
  destruct v; cbn; try (split; [done|by intros [=]]).
  rewrite bool_decide_eq_true. split; [by intros ->|by intros [= ->]].
Qed.

Lemma is_str_false v s : v ≠ JStr s → is_str v s = false.
Proof.
  intros H. destruct (is_str v s) eqn:E; [|done].
  by apply is_str_true in E.
Qed.

(** The branches of [dispatch] on a dictionary. *)
Lemma dispatch_signal tr ws c fields w :
  field "type" fields = JStr "signal" →
  dispatch tr ws c (JObj fields) w
  = if truthy (field "to" fields) then
      match field "to" fields with
      | JStr to_id =>
          relay_message tr c to_id
            (signal (field "signal" fields) (field "signal_type" fields)) w
      | v => if hashable v then (Ok tt, w) else (Raise TypeError, w)
      end
    else (Ok tt, w).
Proof.
  intros Hty. unfold dispatch, get_or, field in *.
  unfold bind at 1. unfold ret at 1. rewrite Hty. cbn [is_str].
  rewrite bool_decide_eq_true_2 by done.
  unfold bind at 1. unfold ret at 1.
  destruct (truthy _); [|done].
  unfold bind at 1. unfold ret at 1. unfold bind at 1. unfold ret at 1.
  destruct (Dict.get "to" fields) as [[]|]; try done;
    by destruct (hashable _).
Qed.

Lemma dispatch_chat tr ws c fields w :
  field "type" fields = JStr "chat" →
  dispatch tr ws c (JObj fields) w
  = match client_info (manager w) !! c with
    | None => (Raise KeyError, w)
    | Some info =>
        broadcast_to_room tr (room info)
          (chat c (name info) (field "message" fields)
                (isoformat_now tr (ticks w))) None
          {| manager := manager w; wire := wire w; ticks := S (ticks w) |}
    end.
Proof.
  intros Hty. unfold dispatch, get_or, field in *.
  unfold bind at 1. unfold ret at 1. rewrite Hty. cbn [is_str].
  rewrite bool_decide_eq_false_2 by discriminate.
  rewrite bool_decide_eq_true_2 by done.
  unfold bind at 1. unfold get_manager at 1.
  destruct (client_info (manager w) !! c) as [info|]; [|done].
  unfold bind at 1. unfold ret at 1. unfold bind at 1. by unfold now at 1.
Qed.

Lemma dispatch_ping tr ws c fields w :
  field "type" fields = JStr "ping" →
  dispatch tr ws c (JObj fields) w
  = send_json tr ws (pong (isoformat_now tr (ticks w)))
      {| manager := manager w; wire := wire w; ticks := S (ticks w) |}.
Proof.
  intros Hty. unfold dispatch, get_or, field in *.
  unfold bind at 1. unfold ret at 1. rewrite Hty. cbn [is_str].
  rewrite !bool_decide_eq_false_2 by discriminate.
  rewrite bool_decide_eq_true_2 by done.
  unfold bind at 1. by unfold now at 1.
Qed.

Lemma dispatch_other tr ws c fields w :
  field "type" fields ≠ JStr "signal" →
  field "type" fields ≠ JStr "chat" →
  field "type" fields ≠ JStr "ping" →
  dispatch tr ws c (JObj fields) w = (Ok tt, w).
Proof.
  intros H1 H2 H3. unfold dispatch, get_or. fold (field "type" fields).
  unfold bind at 1. unfold ret at 1.
  by rewrite !is_str_false.
Qed.

(** X11: A signal with a route: when the sender and the target have records
    that name the same room and the target's connection is stored
    there, the handler writes to that connection the dictionary
    [type], [signal], [signal_type] (absent fields as [null]) with
    ["from"] set to the sender, and stays in the loop.  (Stated for a
    connection that accepts the write.) *)
Theorem step_signal_relays tr ws a b r wsb fields w :
  field "type" fields = JStr "signal" →
  field "to" fields = JStr b →
  b ≠ "" →
  room_of (manager w) a = Some r →
  room_of (manager w) b = Some r →
  seat_of (manager w) b = Some wsb →
  send_fails tr wsb = false →
  step tr ws a Active (Message (JObj fields)) w
  = Some (Active,
          deliver [(wsb, [("type", JStr "signal");
                          ("signal", field "signal" fields);
                          ("signal_type", field "signal_type" fields);
                          ("from", JStr a)])] w).
Proof.
  intros Hty Hto Hb Hra Hrb Hseat Hup.
  rewrite step_active_settle, dispatch_signal by done. rewrite Hto.
  cbn [truthy]. destruct (String.eqb b "") eqn:E;
    [by apply String.eqb_eq in E|]. cbn [negb].
  rewrite relay_message_eq. unfold room_of in Hra, Hrb.
  apply seat_of_record in Hseat as (ti & Hti & Hws). rewrite Hti in Hrb |- *.
  destruct (client_info (manager w) !! a) as [fi|]; [|done].
  cbn in Hra, Hrb. injection Hra as Hra. injection Hrb as Hrb.
  rewrite decide_True by congruence. rewrite Hws.
  rewrite send_json_up by done. reflexivity.
Qed.

Lemma step_signal_relays_witness :
  step calm 1 "c1" Active
    (Message (JObj [("type", JStr "signal"); ("to", JStr "c2");
                    ("signal", JStr "offer-blob");
                    ("signal_type", JStr "offer")])) lobby
  = Some (Active,
          deliver [(2, [("type", JStr "signal");
                        ("signal", JStr "offer-blob");
                        ("signal_type", JStr "offer");
                        ("from", JStr "c1")])] lobby).
Proof.
  apply (step_signal_relays calm 1 "c1" "c2" "lobby" 2
           [("type", JStr "signal"); ("to", JStr "c2");
            ("signal", JStr "offer-blob"); ("signal_type", JStr "offer")]
           lobby); try (vm_compute; reflexivity).
  discriminate.
Defined.

(** X12: A signal without a route is dropped and the session goes on: when
    [to] is absent or falsy; when it names an id such that sender and
    target do not both have records naming one same room, or the target
    has no connection stored there; and when it is a number or [true].
    A [to] that is a non-empty list or dictionary cannot be looked up:
    the session ends with the handler's [disconnect]. *)
Theorem step_signal_without_route tr ws a fields w :
  field "type" fields = JStr "signal" →
  (truthy (field "to" fields) = false →
   step tr ws a Active (Message (JObj fields)) w = Some (Active, w))
  ∧ (∀ b, field "to" fields = JStr b →
       (∀ r, ¬ (room_of (manager w) a = Some r
                ∧ room_of (manager w) b = Some r))
       ∨ seat_of (manager w) b = None →
       step tr ws a Active (Message (JObj fields)) w = Some (Active, w))
  ∧ ((∀ b, field "to" fields ≠ JStr b) →
     hashable (field "to" fields) = true →
     step tr ws a Active (Message (JObj fields)) w = Some (Active, w))
  ∧ (truthy (field "to" fields) = true →
     hashable (field "to" fields) = false →
     step tr ws a Active (Message (JObj fields)) w
     = Some (Closed, (disconnect tr a w).2)).
Proof.
  intros Hty. rewrite step_active_settle, dispatch_signal by done.
  split; [by intros ->|]. split; [|split].
  - intros b Hto Hno. rewrite Hto.
    destruct (truthy (JStr b)); [|done].
    rewrite relay_message_eq. unfold room_of, seat_of in Hno.
    destruct (client_info (manager w) !! b) as [ti|]; [|done].
    destruct (client_info (manager w) !! a) as [fi|]; [|done].
    cbn in Hno. destruct (decide (room fi = room ti)) as [E|]; [|done].
    destruct Hno as [Hno| ->]; [|done].
    destruct (Hno (room ti)). by rewrite E.
  - intros Hns Hh. destruct (truthy _); [|done].
    destruct (field "to" fields) eqn:E; try done; try by destruct (Hns s).
  - intros Ht Hh. rewrite Ht.
    by destruct (field "to" fields) eqn:E.
Qed.

Lemma step_signal_without_route_witness :
  step calm 1 "c1" Active
    (Message (JObj [("type", JStr "signal"); ("to", JStr "c3")])) two_rooms
  = Some (Active, two_rooms).
Proof.
  pose proof (step_signal_without_route calm 1 "c1"
                [("type", JStr "signal"); ("to", JStr "c3")] two_rooms)
    as H.
  destruct H as (_ & H & _); [reflexivity|].
  apply (H "c3"); [reflexivity|]. left. intros r [H1 H2].
  vm_compute in H1, H2. congruence.
Defined.

(** X13: A message whose [type] is none of ["signal"], ["chat"], ["ping"],
    or that has no [type], is ignored: the world is as before and the
    session goes on. *)
Theorem step_unknown_type_ignored tr ws c fields w :
  field "type" fields ≠ JStr "signal" →
  field "type" fields ≠ JStr "chat" →
  field "type" fields ≠ JStr "ping" →
  step tr ws c Active (Message (JObj fields)) w = Some (Active, w).
Proof.
  intros H1 H2 H3. rewrite step_active_settle.
  by rewrite dispatch_other.
Qed.

Lemma step_unknown_type_ignored_witness :
  step calm 1 "c1" Active (Message (JObj [("type", JStr "join")])) lobby
  = Some (Active, lobby).
Proof.
  apply (step_unknown_type_ignored calm 1 "c1" [("type", JStr "join")] lobby);
    discriminate.
Defined.

(** X14: A chat message under a client id that has no record ends the
    session: nothing is sent and the world is as before. *)
Theorem step_chat_without_record tr ws c fields w :
  field "type" fields = JStr "chat" →
  client_info (manager w) !! c = None →
  step tr ws c Active (Message (JObj fields)) w = Some (Closed, w).
Proof.
  intros Hty Hnone. rewrite step_active_settle, dispatch_chat by done.
  rewrite Hnone. cbn [settle]. rewrite disconnect_eq.
  unfold disconnect_outcome. cbv zeta. by rewrite Hnone.
Qed.

Lemma step_chat_without_record_witness :
  step calm 9 "ghost" Active
    (Message (JObj [("type", JStr "chat"); ("message", JStr "hi")])) lobby
  = Some (Closed, lobby).
Proof.
  apply (step_chat_without_record calm 9 "ghost"
           [("type", JStr "chat"); ("message", JStr "hi")] lobby);
    vm_compute; reflexivity.
Defined.

Lemma is_str_false_ne v s : is_str v s = false → v ≠ JStr s.
Proof. intros H ->. cbn in H. by rewrite bool_decide_eq_true_2 in H. Qed.

Lemma send_json_manager tr ws msg w :
  manager (send_json tr ws msg w).2 = manager w.
Proof. unfold send_json. by destruct (send_fails tr ws). Qed.

Lemma relay_message_manager tr a b msg w :
  manager (relay_message tr a b msg w).2 = manager w.
Proof.
  rewrite relay_message_eq.
  destruct (client_info (manager w) !! b) as [ti|]; [|done].
  destruct (client_info (manager w) !! a) as [fi|]; [|done].
  destruct (decide _); [|done].
  destruct (socket_of _ _ _); [|done]. apply send_json_manager.
Qed.

Lemma broadcast_to_room_manager tr r msg exclude w :
  manager (broadcast_to_room tr r msg exclude w).2 = manager w.
Proof.
  rewrite broadcast_to_room_eq.
  by destruct (active_rooms (manager w) !! r).
Qed.

(** No branch of [dispatch] writes to the registry. *)
Lemma dispatch_manager tr ws c data w :
  manager (dispatch tr ws c data w).2 = manager w.
Proof.
  destruct data as [ |?|?|?|?|fields]; try done.
  destruct (is_str (field "type" fields) "signal") eqn:E1.
  { apply is_str_true in E1. rewrite dispatch_signal by done.
    destruct (truthy _); [|done].
    destruct (field "to" fields); try done; try by destruct (hashable _).
    apply relay_message_manager. }
  destruct (is_str (field "type" fields) "chat") eqn:E2.
  { apply is_str_true in E2. rewrite dispatch_chat by done.
    destruct (client_info (manager w) !! c); [|done].
    by rewrite broadcast_to_room_manager. }
  destruct (is_str (field "type" fields) "ping") eqn:E3.
  { apply is_str_true in E3. rewrite dispatch_ping by done.
    by rewrite send_json_manager. }
  by rewrite dispatch_other by (by apply is_str_false_ne).
Qed.

Lemma active_step_cases tr ws c ev w :
  ∃ res w1, manager w1 = manager w
            ∧ step tr ws c Active ev w = Some (settle tr c Active (res, w1)).
Proof.
  destruct (carries_dict ev) eqn:Hev.
  - destruct ev as [data| |e]; try done.
    destruct data as [ |?|?|?|?|fields]; try done.
    exists (dispatch tr ws c (JObj fields) w).1,
           (dispatch tr ws c (JObj fields) w).2.
    split; [apply dispatch_manager|].
    rewrite step_active_settle. by destruct (dispatch _ _ _ _ _).
  - exists (Raise RuntimeError), w. split; [done|].
    by apply step_active_no_dict.
Qed.

(** X15: In the loop the registry changes in one way only.  A peer that
    disconnects, a receive that fails and a message that is not a
    dictionary end the session with the handler's [disconnect]; and
    whatever the event, either the session goes on with the registry as
    it was, or it closes after one [disconnect] of this client on the
    registry as it was.  When the members of the registry all have a
    record naming their room, that [disconnect] leaves the client in no
    member set. *)
Theorem active_step_changes_registry_by_leave_only tr ws c ev w :
  (carries_dict ev = false →
   step tr ws c Active ev w = Some (Closed, (disconnect tr c w).2))
  ∧ ∀ s' w', step tr ws c Active ev w = Some (s', w') →
      (s' = Active ∧ manager w' = manager w)
      ∨ (s' = Closed
         ∧ (∃ w1, manager w1 = manager w ∧ w' = (disconnect tr c w1).2)
         ∧ (members_recorded (manager w) →
            ∀ r, ¬ in_room (manager w') c r)).
Proof.
  split; [apply step_active_no_dict|].
  intros s' w' Hstep.
  destruct (active_step_cases tr ws c ev w) as (res & w1 & Hw1 & E).
  rewrite E in Hstep. injection Hstep as Hstep.
  destruct res as [[]|e]; cbn in Hstep; injection Hstep as <- <-.
  - by left.
  - right. split; [done|]. split; [by exists w1|].
    intros Hm. apply disconnect_no_entry. by rewrite Hw1.
Qed.

(** ** The first message *)

Lemma read_first_join c fields w :
  field "type" fields = JStr "join" →
  read_first c (Message (JObj fields)) w
  = (Ok (JoinRequest (match Dict.get "room_id" fields with
                      | Some v => v
                      | None => JStr "default"
                      end)
                     (requested_name c fields)), w).
Proof.
  intros Hty. unfold read_first, receive_json, subscript, get_or, field in *.
  unfold bind at 1. unfold ret at 1. unfold bind at 1.
  destruct (Dict.get "type" fields) as [ty|]; [|done]. subst ty.
  unfold ret at 1. cbn [is_str]. rewrite bool_decide_eq_true_2 by done.
  unfold bind at 1. unfold ret at 1. unfold bind at 1. by unfold ret at 1.
Qed.

Lemma connect_ok_accepted tr ws c r username w :
  (connect tr ws c r username w).1 = Ok tt → accept_fails tr ws = false.
Proof.
  rewrite connect_eq. unfold connect_outcome.
  by destruct (accept_fails tr ws).
Qed.

(** X16: A join request: with [room_id] a string, or absent (the room is
    then ["default"]), and [username] any value, or absent (the name is
    then ["User_"] followed by the first six characters of the client
    id, each character with all the bytes of its encoding), the handler
    runs [connect] with them; the session is active
    when [connect] returned, with the client registered as requested on
    the handler's connection, and closed after the handler's
    [disconnect] when it raised.  A [room_id] that is a list or a
    dictionary ends the session the same way. *)
Theorem step_join_request tr ws c fields w :
  field "type" fields = JStr "join" →
  let username :=
    match Dict.get "username" fields with
    | Some v => v
    | None => JStr (String.append "User_" (first_chars 6 c))
    end in
  (∀ r, requested_room fields = Some r →
     step tr ws c AwaitingJoin (Message (JObj fields)) w
     = Some (settle tr c Active (connect tr ws c r username w))
     ∧ ((connect tr ws c r username w).1 = Ok tt →
        let m' := manager (connect tr ws c r username w).2 in
        seat_of m' c = Some ws
        ∧ room_of m' c = Some r
        ∧ name_of m' c = username))
  ∧ (∀ v, Dict.get "room_id" fields = Some v → hashable v = false →
       step tr ws c AwaitingJoin (Message (JObj fields)) w
       = Some (Closed, (disconnect tr c w).2)).
Proof.
  intros Hty. cbv zeta. change (match Dict.get "username" fields with
                                | Some v => v
                                | None => JStr (String.append "User_"
                                                  (first_chars 6 c))
                                end) with (requested_name c fields).
  split.
  - intros r Hr. split.
    + unfold step, try_except, first_message. unfold bind at 1.
      rewrite read_first_join by done. unfold requested_room in Hr.
      assert (E : match Dict.get "room_id" fields with
                  | Some v => v
                  | None => JStr "default"
                  end = JStr r).
      { destruct (Dict.get "room_id" fields) as [[]|]; congruence. }
      rewrite E. unfold bind at 1.
      destruct (connect tr ws c r (requested_name c fields) w) as [[[]|e] w1];
        done.
    + intros Hok. apply connect_ok_accepted in Hok. cbv zeta.
      rewrite connect_manager, Hok. split; [apply seat_of_seat|].
      unfold room_of, name_of, seat. cbn [client_info].
      by rewrite lookup_insert_eq.
  - intros v Hv Hh. unfold step, try_except, first_message.
    unfold bind at 1. rewrite read_first_join by done. rewrite Hv.
    destruct v; try done; unfold bind at 1, accept;
      by destruct (accept_fails tr ws).
Qed.

(** A client id of more than six characters, some of them of two
    bytes: the default name keeps the first six characters whole. *)
Lemma step_join_request_witness :
  step calm 1 "zażółć-gęślą" AwaitingJoin
    (Message (JObj [("type", JStr "join")])) world0
  = Some (settle calm "zażółć-gęślą" Active
            (connect calm 1 "zażółć-gęślą" "default" (JStr "User_zażółć")
               world0)).
Proof.
  pose proof (step_join_request calm 1 "zażółć-gęślą" [("type", JStr "join")]
                world0) as [H _]; [reflexivity|].
  apply (H "default"). reflexivity.
Defined.

Lemma recipients_fresh c (l : list (string * WebSocket)) :
  Dict.get c l = None → recipients (Some c) l = l.
Proof.
  intros Hc. rewrite recipients_Some. induction l as [|[k v] l IH]; [done|].
  cbn in Hc. destruct (decide (k = c)) as [|Hne]; [done|].
  rewrite filter_cons_True by done. by rewrite IH.
Qed.

(** X17: A join that cannot be completed is undone.  For a join request
    with [room_id] a string or absent, under a client id without a
    record: when the handshake is refused nothing changes.  And in a
    registry whose members all have a record naming their room and
    which holds no empty room, when the room mates accept their writes
    but the joining connection refuses the [room_joined] confirmation,
    the session closes with the manager it started from, each room mate
    having been sent [{"type": "user_joined", "client_id": c,
    "username": ..., "timestamp": ...}] and then [{"type": "user_left",
    "client_id": c, "username": ..., "timestamp": ...}], with the
    [username] of the request or, when it has none, ["User_"] followed
    by the first six characters of the client id. *)
Theorem step_join_failed_is_undone tr ws c r fields w :
  field "type" fields = JStr "join" →
  requested_room fields = Some r →
  client_info (manager w) !! c = None →
  let username :=
    match Dict.get "username" fields with
    | Some v => v
    | None => JStr (String.append "User_" (first_chars 6 c))
    end in
  (accept_fails tr ws = true →
   step tr ws c AwaitingJoin (Message (JObj fields)) w = Some (Closed, w))
  ∧ (accept_fails tr ws = false →
     send_fails tr ws = true →
     members_recorded (manager w) →
     rooms_nonempty (manager w) →
     all_up tr (default [] (active_rooms (manager w) !! r)) = true →
     ∃ w',
       step tr ws c AwaitingJoin (Message (JObj fields)) w = Some (Closed, w')
       ∧ manager w' = manager w
       ∧ wire w'
         = wire w ++
           (fanout [("type", JStr "user_joined"); ("client_id", JStr c);
                    ("username", username);
                    ("timestamp", JStr (isoformat_now tr (S (ticks w))))]
                   (default [] (active_rooms (manager w) !! r)) ++
            fanout [("type", JStr "user_left"); ("client_id", JStr c);
                    ("username", username);
                    ("timestamp",
                     JStr (isoformat_now tr (S (S (S (ticks w))))))]
                   (default [] (active_rooms (manager w) !! r)))).
Proof.
  intros Hty Hr Hnone. cbv zeta.
  change (match Dict.get "username" fields with
          | Some v => v
          | None => JStr (String.append "User_" (first_chars 6 c))
          end) with (requested_name c fields).
  assert (Hstep : step tr ws c AwaitingJoin (Message (JObj fields)) w
            = Some (settle tr c Active
                      (connect tr ws c r (requested_name c fields) w))).
  { unfold step, try_except, first_message. unfold bind at 1.
    rewrite read_first_join by done. unfold requested_room in Hr.
    assert (E : match Dict.get "room_id" fields with
                | Some v => v
                | None => JStr "default"
                end = JStr r).
    { destruct (Dict.get "room_id" fields) as [[]|]; congruence. }
    rewrite E. unfold bind at 1.
    destruct (connect tr ws c r (requested_name c fields) w) as [[[]|e] w1];
      done. }
  rewrite Hstep, connect_eq. unfold connect_outcome. split; intros Hacc.
  - rewrite Hacc. cbn [settle]. rewrite disconnect_eq.
    unfold disconnect_outcome. cbv zeta. by rewrite Hnone.
  - intros Hdown Hm Hne Hup. rewrite Hacc.
    assert (Hfresh : Dict.get c (default [] (active_rooms (manager w) !! r))
                     = None).
    { destruct (active_rooms (manager w) !! r) as [members|] eqn:Er; [|done].
      cbn. destruct (Dict.get c members) as [x|] eqn:Hx; [|done].
      destruct (in_room_recorded (manager w) c r Hm) as (i & Hi & _);
        [|congruence].
      exists x. unfold socket_of. by rewrite Er. }
    assert (Hothers : recipients (Some c) (seated_members ws c r (manager w))
                      = default [] (active_rooms (manager w) !! r)).
    { unfold seated_members. rewrite recipients_Some, filter_set_other.
      rewrite <- recipients_Some. by apply recipients_fresh. }
    unfold joined_outcome. cbv zeta. rewrite Hothers, Hup.
    rewrite (reached_all_up _ _ Hup).
    assert (Hex : is_Some (existing_users_of
              (client_info (seat ws c r (requested_name c fields)
                              (isoformat_now tr (ticks w)) (manager w)))
              (filter (λ cid, cid ≠ c)
                      (Dict.keys (seated_members ws c r (manager w)))))).
    { unfold existing_users_of. apply mapM_is_Some_2, Forall_forall.
      intros cid Hcid. apply list_elem_of_filter in Hcid as [Hne' Hcid].
      unfold Dict.keys in Hcid.
      apply list_elem_of_fmap in Hcid as [[c' x] [-> Hin]].
      unfold seated_members in Hin. apply elem_of_set in Hin as [[= -> _]|Hin];
        [done|].
      cbn. unfold seat. cbn [client_info]. rewrite lookup_insert_ne by done.
      destruct (active_rooms (manager w) !! r) as [members|] eqn:Er;
        [|inversion Hin].
      specialize (Hm r members Er). cbn in Hm. rewrite Forall_forall in Hm.
      specialize (Hm _ Hin). unfold room_of in Hm. cbn in Hm.
      by destruct (client_info (manager w) !! c'). }
    destruct Hex as [existing ->]. rewrite Hdown. cbn [settle].
    rewrite (leave_after_seat tr c r ws (requested_name c fields)
               (isoformat_now tr (ticks w)) (manager w)); try done.
    eexists. split; [reflexivity|]. split; [done|].
    cbn [wire ticks]. by rewrite <- app_assoc.
Qed.

Lemma step_join_failed_is_undone_witness :
  ∃ w',
    step (down 3) 3 "c3" AwaitingJoin
      (Message (JObj [("type", JStr "join"); ("room_id", JStr "lobby")]))
      lobby
    = Some (Closed, w')
    ∧ manager w' = manager lobby
    ∧ wire w'
      = wire lobby ++
        (fanout [("type", JStr "user_joined"); ("client_id", JStr "c3");
                 ("username", JStr "User_c3");
                 ("timestamp",
                  JStr (isoformat_now (down 3) (S (ticks lobby))))]
                [("c1", 1); ("c2", 2)] ++
         fanout [("type", JStr "user_left"); ("client_id", JStr "c3");
                 ("username", JStr "User_c3");
                 ("timestamp",
                  JStr (isoformat_now (down 3) (S (S (S (ticks lobby))))))]
                [("c1", 1); ("c2", 2)]).
Proof.
  pose proof (step_join_failed_is_undone (down 3) 3 "c3" "lobby"
                [("type", JStr "join"); ("room_id", JStr "lobby")] lobby)
    as [_ H]; try (vm_compute; reflexivity).
  apply H; try (vm_compute; reflexivity);
    apply (bool_decide_unpack _); vm_compute; reflexivity.
Defined.

(** ** Invariants along the steps of the handler *)

Lemma read_first_world c ev w : (read_first c ev w).2 = w.
Proof.
  unfold read_first, receive_json, subscript, get_or.
  destruct ev as [data| |e]; try done.
  unfold bind at 1. unfold ret at 1. unfold bind at 1.
  destruct data as [ |?|?|?|?|fields]; try done.
  destruct (Dict.get "type" fields) as [ty|]; [|done].
  unfold ret at 1. by destruct (is_str ty "join").
Qed.

(** The world after the first step is the given one or the one
    [connect] made, possibly followed by the handler's [disconnect]. *)
Lemma first_step_cases tr ws c ev w s' w' :
  step tr ws c AwaitingJoin ev w = Some (s', w') →
  ∃ w1, (w1 = w ∨ ∃ r u, w1 = (connect tr ws c r u w).2)
        ∧ (w' = w1 ∨ w' = (disconnect tr c w1).2).
Proof.
  unfold step, try_except, first_message. unfold bind at 1.
  pose proof (read_first_world c ev w) as Hw.
  destruct (read_first c ev w) as [[f|e] w0]; cbn in Hw; subst w0.
  2:{ intros [= <- <-]. exists w. auto. }
  destruct f as [room_id username|].
  2:{ intros [= <- <-]. exists w. auto. }
  destruct room_id as [ |?|?|r|?|?]; try done;
    try (unfold bind at 1, accept;
         destruct (accept_fails tr ws); intros [= <- <-]; exists w; auto).
  unfold bind at 1.
  destruct (connect tr ws c r username w) as [[[]|e] w1] eqn:E;
    intros [= <- <-]; exists w1;
    (split; [right; exists r, username; by rewrite E|auto]).
Qed.

Lemma step_rooms_nonempty tr ws c s ev w s' w' :
  rooms_nonempty (manager w) →
  step tr ws c s ev w = Some (s', w') →
  rooms_nonempty (manager w').
Proof.
  intros Hne Hstep. destruct s.
  - apply first_step_cases in Hstep as (w1 & Hw1 & Hw').
    assert (H1 : rooms_nonempty (manager w1)).
    { destruct Hw1 as [->|(r & u & ->)]; [done|].
      by apply rooms_nonempty_connect. }
    destruct Hw' as [->| ->]; [done|]. by apply rooms_nonempty_disconnect.
  - destruct (active_step_cases tr ws c ev w) as (res & w1 & Hw1 & E).
    rewrite E in Hstep. injection Hstep as Hstep.
    destruct res as [[]|e]; cbn in Hstep; injection Hstep as <- <-.
    + by rewrite Hw1.
    + apply rooms_nonempty_disconnect. by rewrite Hw1.
  - by injection Hstep as <- <-.
Qed.

(** Every step but a first message that asks for a room under a
    number, a boolean or [null] has an outcome in the model. *)
Lemma step_represented tr ws c s ev w :
  represented s ev = true → is_Some (step tr ws c s ev w).
Proof.
  intros Hrep. destruct s; [|done..]. cbn in Hrep.
  apply negb_true_iff in Hrep.
  unfold step, try_except, first_message. unfold bind at 1.
  pose proof (read_first_world c ev w) as Hw.
  destruct (read_first c ev w) as [[f|e] w0] eqn:E; cbn in Hw; subst w0;
    [|done].
  destruct f as [room_id username|]; [|done].
  assert (Hroom : match room_id with
                  | JNull | JBool _ | JNum _ => False
                  | _ => True
                  end).
  { revert E Hrep.
    unfold read_first, receive_json, subscript, get_or, scalar_room_join,
      field.
    destruct ev as [data| |e]; [|done..].
    unfold bind at 1. unfold ret at 1. unfold bind at 1.
    destruct data as [ |?|?|?|?|fields]; try done.
    destruct (Dict.get "type" fields) as [ty|]; [|done].
    unfold ret at 1. destruct (is_str ty "join"); [|done].
    unfold bind at 1. unfold ret at 1. unfold bind at 1. unfold ret at 1.
    intros [= <- _].
    by destruct (Dict.get "room_id" fields) as [[]|]. }
  destruct room_id as [ |?|?|r|?|?]; try done.
  - unfold bind at 1.
    by destruct (connect tr ws c r username w) as [[[]|?] ?].
  - unfold bind at 1, accept. by destruct (accept_fails tr ws).
  - unfold bind at 1, accept. by destruct (accept_fails tr ws).
Qed.

(** X18: No handling of events, on any connections, in any order and under
    any behaviour of the transport, leaves an empty room in
    [active_rooms].  Stated for the events the model represents: all
    but a first message that is a join request whose [room_id] is a
    number, a boolean or [null]. *)
Theorem serve_keeps_rooms_nonempty steps :
  Forall (λ st, represented st.1.2 st.2 = true) steps →
  ∃ w', serve steps world0 = Some w' ∧ rooms_nonempty (manager w').
Proof.
  assert (H : ∀ w, rooms_nonempty (manager w) →
                   Forall (λ st, represented st.1.2 st.2 = true) steps →
                   ∃ w', serve steps w = Some w'
                         ∧ rooms_nonempty (manager w')).
  { induction steps as [|[[[[tr ws] c] s] ev] steps IH]; intros w Hw Hrep.
    - by exists w.
    - apply Forall_cons in Hrep as [Hrep Hrest]. cbn in Hrep. cbn [serve].
      destruct (step_represented tr ws c s ev w Hrep) as [[s1 w1] E].
      rewrite E. apply IH; [|done]. by eapply step_rooms_nonempty. }
  apply H. intros ? ?. cbn. by rewrite lookup_empty.
Qed.

Lemma serve_keeps_rooms_nonempty_witness :
  ∃ w',
    serve [(calm, 1, "c1", AwaitingJoin,
            Message (JObj [("type", JStr "join");
                           ("room_id", JStr "lobby");
                           ("username", JStr "alice")]));
           (calm, 2, "c2", AwaitingJoin,
            Message (JObj [("type", JStr "join");
                           ("room_id", JStr "lobby");
                           ("username", JStr "bob")]));
           (down 1, 2, "c2", Active, Disconnected)] world0 = Some w'
    ∧ rooms_nonempty (manager w').
Proof.
  apply (serve_keeps_rooms_nonempty
           [(calm, 1, "c1", AwaitingJoin,
             Message (JObj [("type", JStr "join");
                            ("room_id", JStr "lobby");
                            ("username", JStr "alice")]));
            (calm, 2, "c2", AwaitingJoin,
             Message (JObj [("type", JStr "join");
                            ("room_id", JStr "lobby");
                            ("username", JStr "bob")]));
            (down 1, 2, "c2", Active, Disconnected)]).
  repeat (constructor; [reflexivity|]). constructor.
Defined.

(** X19: A step of the handler keeps the members with their records, and so
    every client id in at most one room, provided a first message
    arrives under a client id that has no record.  Stated for the
    events the model represents: all but a first message that is a join
    request whose [room_id] is a number, a boolean or [null]. *)
Theorem step_keeps_members_recorded tr ws c s ev w :
  members_recorded (manager w) →
  (s = AwaitingJoin → client_info (manager w) !! c = None) →
  represented s ev = true →
  ∃ s' w', step tr ws c s ev w = Some (s', w')
           ∧ members_recorded (manager w')
           ∧ at_most_one_room (manager w').
Proof.
  intros Hm Hfresh Hrep.
  destruct (step_represented tr ws c s ev w Hrep) as [[s' w'] Hstep].
  exists s', w'. split; [done|].
  assert (H : members_recorded (manager w'));
    [|split; [done|by apply members_recorded_one_room]].
  destruct s.
  - apply first_step_cases in Hstep as (w1 & Hw1 & Hw').
    assert (H1 : members_recorded (manager w1)).
    { destruct Hw1 as [->|(r & u & ->)]; [done|].
      rewrite connect_manager. destruct (accept_fails tr ws); [done|].
      apply members_recorded_seat; auto. }
    destruct Hw' as [->| ->]; [done|]. by apply members_recorded_disconnect.
  - destruct (active_step_cases tr ws c ev w) as (res & w1 & Hw1 & E).
    rewrite E in Hstep. injection Hstep as Hstep.
    destruct res as [[]|e]; cbn in Hstep; injection Hstep as <- <-.
    + by rewrite Hw1.
    + apply members_recorded_disconnect. by rewrite Hw1.
  - by injection Hstep as <- <-.
Qed.

Lemma step_keeps_members_recorded_witness :
  ∃ s' w',
    step calm 3 "c3" AwaitingJoin
      (Message (JObj [("type", JStr "join"); ("room_id", JStr "den");
                      ("username", JStr "carol")])) lobby = Some (s', w')
    ∧ members_recorded (manager w')
    ∧ at_most_one_room (manager w').
Proof.
  apply (step_keeps_members_recorded calm 3 "c3" AwaitingJoin
           (Message (JObj [("type", JStr "join"); ("room_id", JStr "den");
                           ("username", JStr "carol")]))
           lobby).
  - apply (bool_decide_unpack _). vm_compute. reflexivity.
  - intros _. vm_compute. reflexivity.
  - reflexivity.
Defined.

(** ** First join and last leave *)

(** X20: The first join of a room creates it: for a room id that is not in
    [active_rooms], a [connect] whose handshake and confirmation are
    accepted sends no [user_joined] at all, answers [{"type":
    "room_joined", "room_id": r, "client_id": c, "existing_users": [],
    "timestamp": ...}], and leaves the room with the joining client as
    its only member. *)
Theorem connect_creates_room tr ws c r username w :
  active_rooms (manager w) !! r = None →
  accept_fails tr ws = false →
  send_fails tr ws = false →
  connect tr ws c r username w
  = (Ok tt,
     {| manager := seat ws c r username (isoformat_now tr (ticks w))
                        (manager w);
        wire := wire w ++
                [(ws, [("type", JStr "room_joined"); ("room_id", JStr r);
                       ("client_id", JStr c); ("existing_users", JArr []);
                       ("timestamp",
                        JStr (isoformat_now tr (S (S (ticks w)))))])];
        ticks := S (S (S (ticks w))) |})
  ∧ active_rooms (manager (connect tr ws c r username w).2) !! r
    = Some [(c, ws)].
Proof.
  intros Hr Hacc Hup.
  assert (E : connect tr ws c r username w
    = (Ok tt,
       {| manager := seat ws c r username (isoformat_now tr (ticks w))
                          (manager w);
          wire := wire w ++ [(ws, room_joined r c []
                                    (isoformat_now tr (S (S (ticks w)))))];
          ticks := S (S (S (ticks w))) |})).
  { rewrite connect_eq. unfold connect_outcome, joined_outcome. rewrite Hacc.
    cbv zeta. unfold seated_members. rewrite Hr. cbn [default from_option id].
    cbn [Dict.set Dict.keys map fst]. rewrite recipients_Some.
    rewrite !filter_cons_False by (cbn; auto). rewrite !filter_nil.
    cbn [all_up forallb reached fanout map existing_users_of mapM].
    rewrite Hup. by rewrite app_nil_r. }
  split; [done|]. rewrite E. cbn [snd manager]. unfold seat, seated_members.
  cbn [active_rooms]. by rewrite lookup_insert_eq, Hr.
Qed.

Lemma connect_creates_room_witness :
  connect calm 3 "c3" "den" (JStr "carol") lobby
  = (Ok tt,
     {| manager := seat 3 "c3" "den" (JStr "carol")
                        (isoformat_now calm (ticks lobby)) (manager lobby);
        wire := wire lobby ++
                [(3, [("type", JStr "room_joined"); ("room_id", JStr "den");
                      ("client_id", JStr "c3"); ("existing_users", JArr []);
                      ("timestamp",
                       JStr (isoformat_now calm (S (S (ticks lobby)))))])];
        ticks := S (S (S (ticks lobby))) |})
  ∧ active_rooms (manager (connect calm 3 "c3" "den" (JStr "carol") lobby).2)
      !! "den"
    = Some [("c3", 3)].
Proof.
  apply (connect_creates_room calm 3 "c3" "den" (JStr "carol") lobby);
    vm_compute; reflexivity.
Defined.

(** X21: The last leave deletes the room: when the leaving client is the
    only member of its room, [disconnect] writes nothing, returns
    whatever the transport does, and removes both the room and the
    record. *)
Theorem disconnect_last_member_deletes_room tr c ws info w :
  client_info (manager w) !! c = Some info →
  active_rooms (manager w) !! room info = Some [(c, ws)] →
  disconnect tr c w
  = (Ok tt,
     {| manager :=
          {| active_rooms := delete (room info) (active_rooms (manager w));
             client_info := delete c (client_info (manager w)) |};
        wire := wire w;
        ticks := S (ticks w) |}).
Proof.
  intros Hi Hr. rewrite disconnect_eq. unfold disconnect_outcome. cbv zeta.
  rewrite Hi, Hr. unfold Dict.mem. cbn [Dict.get Dict.del].
  rewrite !decide_True by done. cbn [all_up forallb fanout map].
  by rewrite app_nil_r.
Qed.

Lemma disconnect_last_member_deletes_room_witness :
  disconnect (down 1) "c1" solo
  = (Ok tt,
     {| manager :=
          {| active_rooms := delete "lobby" (active_rooms (manager solo));
             client_info := delete "c1" (client_info (manager solo)) |};
        wire := wire solo;
        ticks := S (ticks solo) |}).
Proof.
  apply (disconnect_last_member_deletes_room (down 1) "c1" 1
           {| room := "lobby"; name := JStr "alice";
              joined_at := isoformat_now calm 0 |} solo);
    vm_compute; reflexivity.
Defined.

(** ** Refused writes in the loop *)

(** X22: A signal whose target refuses the write ends the session of the
    sender: the exception of the target's connection leaves
    [relay_message], and the handler of the sender runs [disconnect]
    for the sender and closes. *)
Theorem step_signal_refused_ends_sender_session tr ws a b r wsb fields w :
  field "type" fields = JStr "signal" →
  field "to" fields = JStr b →
  b ≠ "" →
  room_of (manager w) a = Some r →
  room_of (manager w) b = Some r →
  seat_of (manager w) b = Some wsb →
  send_fails tr wsb = true →
  step tr ws a Active (Message (JObj fields)) w
  = Some (Closed, (disconnect tr a w).2).
Proof.
  intros Hty Hto Hb Hra Hrb Hseat Hdown.
  rewrite step_active_settle, dispatch_signal by done. rewrite Hto.
  cbn [truthy]. destruct (String.eqb b "") eqn:E;
    [by apply String.eqb_eq in E|]. cbn [negb].
  unfold room_of in Hra, Hrb.
  apply seat_of_record in Hseat as (ti & Hti & Hws). rewrite Hti in Hrb.
  destruct (client_info (manager w) !! a) as [fi|] eqn:Hfi; [|done].
  cbn in Hra, Hrb. injection Hra as Hra. injection Hrb as Hrb.
  rewrite (relay_message_refused tr a b _ w ti fi wsb); try done.
  congruence.
Qed.

Lemma step_signal_refused_ends_sender_session_witness :
  step (down 2) 1 "c1" Active
    (Message (JObj [("type", JStr "signal"); ("to", JStr "c2")])) lobby
  = Some (Closed, (disconnect (down 2) "c1" lobby).2).
Proof.
  apply (step_signal_refused_ends_sender_session (down 2) 1 "c1" "c2"
           "lobby" 2 [("type", JStr "signal"); ("to", JStr "c2")] lobby);
    try (vm_compute; reflexivity).
  discriminate.
Defined.

Lemma ping_reply_refused_witness :
  step (down 1) 1 "c1" Active (Message (JObj [("type", JStr "ping")])) lobby
  = Some (Closed,
          (disconnect (down 1) "c1"
             {| manager := manager lobby; wire := wire lobby;
                ticks := S (ticks lobby) |}).2).
Proof.
  apply (ping_reply_refused (down 1) 1 "c1" [("type", JStr "ping")] lobby);
    vm_compute; reflexivity.
Defined.

Lemma orderly_run_well_formed_witness :
  consistent
    (manager (run [(calm, Join 1 "c1" "lobby" (JStr "alice"));
                   (calm, Join 2 "c2" "lobby" (JStr "bob"));
                   (calm, Leave "c1");
                   (calm, Join 3 "c3" "den" (JStr "carol"))] world0))
  ∧ sockets_apart
      (manager (run [(calm, Join 1 "c1" "lobby" (JStr "alice"));
                     (calm, Join 2 "c2" "lobby" (JStr "bob"));
                     (calm, Leave "c1");
                     (calm, Join 3 "c3" "den" (JStr "carol"))] world0)).
Proof.
  apply orderly_run_well_formed.
  - vm_compute. tauto.
  - cbn [connections_new].
    split; [|split; [|split; [|split; [|exact I]]]]; try exact I;
      apply (bool_decide_unpack _); vm_compute; reflexivity.
  - vm_compute. tauto.
Defined.

(** * Routing and notification, with refused writes accounted for *)

(** ** Relay *)

(** C1 (as amended): [relay_message a b payload] routes by the client
    records.  When [a] and [b] have records naming the same room and a
    connection is stored for [b] in that room, the payload, with
    ["from"] set to [a] and its other fields as they were, is written
    to that one connection: delivered when the connection accepts the
    write, raised to the caller when it refuses.  In every other case
    the call returns normally and leaves the world as it was.  Whether
    [a] is in a member set is not looked at. *)
Theorem relay_message_routes_by_records tr a b payload w :
  Dict.get "from" (annotated a payload) = Some (JStr a)
  ∧ (∀ k, k ≠ "from" →
          Dict.get k (annotated a payload) = Dict.get k payload)
  ∧ (∀ r ws,
       room_of (manager w) a = Some r →
       room_of (manager w) b = Some r →
       seat_of (manager w) b = Some ws →
       relay_message tr a b payload w
       = if send_fails tr ws then (Raise RuntimeError, w)
         else (Ok tt, deliver [(ws, annotated a payload)] w))
  ∧ ((∀ r, ¬ (room_of (manager w) a = Some r
              ∧ room_of (manager w) b = Some r))
     ∨ seat_of (manager w) b = None →
     relay_message tr a b payload w = (Ok tt, w)).
Proof.
  split; [apply annotated_from|].
  split; [intros; by apply annotated_other|].
  rewrite relay_message_eq. unfold room_of, seat_of. split.
  - intros r ws Hra Hrb Hseat.
    destruct (client_info (manager w) !! b) as [ti|]; [|done].
    destruct (client_info (manager w) !! a) as [fi|]; [|done].
    cbn in Hra, Hrb, Hseat. injection Hra as Hra. injection Hrb as Hrb.
    rewrite decide_True by congruence. rewrite Hseat.
    unfold send_json. by destruct (send_fails tr ws).
  - intros Hno.
    destruct (client_info (manager w) !! b) as [ti|]; [|done].
    destruct (client_info (manager w) !! a) as [fi|]; [|done].
    cbn in Hno. destruct (decide (room fi = room ti)) as [E|]; [|done].
    destruct Hno as [Hno| ->]; [|done].
    destruct (Hno (room ti)). by rewrite E.
Qed.

Lemma relay_message_routes_by_records_witness :
  relay_message calm "c1" "c2" offer lobby
  = (Ok tt,
     deliver [(2, [("type", JStr "signal"); ("signal", JStr "offer-blob");
                   ("signal_type", JStr "offer"); ("from", JStr "c1")])]
             lobby)
  ∧ relay_message (down 2) "c1" "c2" offer lobby = (Raise RuntimeError, lobby)
  ∧ relay_message calm "c1" "c3" offer two_rooms = (Ok tt, two_rooms).
Proof.
  split; [|split].
  - destruct (relay_message_routes_by_records calm "c1" "c2" offer lobby)
      as (_ & _ & H & _).
    apply (H "lobby" 2); vm_compute; reflexivity.
  - destruct (relay_message_routes_by_records (down 2) "c1" "c2" offer lobby)
      as (_ & _ & H & _).
    apply (H "lobby" 2); vm_compute; reflexivity.
  - destruct (relay_message_routes_by_records calm "c1" "c3" offer two_rooms)
      as (_ & _ & _ & H).
    apply H. left. intros r [H1 H2]. vm_compute in H1, H2. congruence.
Defined.

(** C1 (as stated) fails in both directions.  In [rejoined], [c2] and
    [c1] are both registered and both in the member set of ["lobby"],
    yet the relay from [c2] to [c1] is a no-op, because the record of
    [c1] names ["den"].  In [stale_record], [c3] is in no member set,
    yet its relay to [c2] is delivered. *)
Lemma relay_message_ignores_member_sets :
  (eligible (manager rejoined) "c2" "c1"
   ∧ relay_message calm "c2" "c1" offer rejoined = (Ok tt, rejoined))
  ∧ (¬ eligible (manager stale_record) "c3" "c2"
     ∧ relay_message calm "c3" "c2" offer stale_record
       = (Ok tt,
          deliver [(2, [("type", JStr "signal");
                        ("signal", JStr "offer-blob");
                        ("signal_type", JStr "offer");
                        ("from", JStr "c3")])]
                  stale_record)).
Proof.
  split; split.
  - split; [|split]; [apply (bool_decide_unpack _); vm_compute; reflexivity..|].
    exists "lobby".
    split; apply (bool_decide_unpack _); vm_compute; reflexivity.
  - vm_compute. reflexivity.
  - intros (_ & _ & r & Hin & _).
    assert (Hm : members_recorded (manager stale_record))
      by (apply (bool_decide_unpack _); vm_compute; reflexivity).
    pose proof (members_recorded_room _ _ _ Hm Hin) as Hr.
    vm_compute in Hr. injection Hr as <-.
    destruct Hin as [x Hx]. vm_compute in Hx. discriminate.
  - vm_compute. reflexivity.
Qed.

(** ** Leaving, once and twice *)




(** ** Keepalive *)

(** C9 (as amended): a ping is answered on the handler's own connection
    with [{"type": "pong", "timestamp": ...}] carrying the clock
    reading.  When the connection accepts the reply, the manager of the
    resulting world is the manager it started from, whatever that
    manager holds, and the session goes on.  When the connection
    refuses the reply, nothing is written, the handler runs
    [disconnect] for the client and the session closes. *)
Theorem ping_reply_and_registry tr ws c fields w :
  field "type" fields = JStr "ping" →
  let reply := [("type", JStr "pong");
                ("timestamp", JStr (isoformat_now tr (ticks w)))] in
  (send_fails tr ws = false →
   step tr ws c Active (Message (JObj fields)) w
   = Some (Active,
           {| manager := manager w;
              wire := wire w ++ [(ws, reply)];
              ticks := S (ticks w) |}))
  ∧ (send_fails tr ws = true →
     step tr ws c Active (Message (JObj fields)) w
     = Some (Closed,
             (disconnect tr c
                {| manager := manager w; wire := wire w;
                   ticks := S (ticks w) |}).2)).
Proof.
  intros Hty. cbv zeta.
  rewrite step_active_settle, dispatch_ping by done.
  unfold send_json. split; intros ->; reflexivity.
Qed.

Lemma ping_reply_and_registry_witness :
  step calm 1 "c1" Active (Message (JObj [("type", JStr "ping")])) lobby
  = Some (Active,
          {| manager := manager lobby;
             wire := wire lobby ++
                     [(1, [("type", JStr "pong");
                           ("timestamp",
                            JStr (isoformat_now calm (ticks lobby)))])];
             ticks := S (ticks lobby) |}).
Proof.
  destruct (ping_reply_and_registry calm 1 "c1" [("type", JStr "ping")] lobby)
    as [H _]; [reflexivity|].
  apply H. reflexivity.
Defined.

(** C9 (as stated) fails: when the connection of [c1] refuses the
    reply, the ping of [c1] ends with [c1] removed from the registry
    and [user_left] sent to [c2]. *)
Lemma ping_refused_reply_unregisters :
  registered (manager lobby) "c1"
  ∧ ∃ w',
      step (down 1) 1 "c1" Active (Message (JObj [("type", JStr "ping")]))
        lobby = Some (Closed, w')
      ∧ ¬ registered (manager w') "c1"
      ∧ socket_of (manager w') "lobby" "c1" = None
      ∧ wire w' = wire lobby ++
                  [(2, [("type", JStr "user_left"); ("client_id", JStr "c1");
                        ("username", JStr "alice");
                        ("timestamp", JStr (isoformat_now (down 1) 7))])].
Proof.
  split; [apply (bool_decide_unpack _); vm_compute; reflexivity|].
  eexists. split; [vm_compute; reflexivity|]. split; [|split].
  - intros [x Hx]. vm_compute in Hx. discriminate.
  - vm_compute. reflexivity.
  - vm_compute. reflexivity.
Qed.

(** ** Chat *)

(** C7 (as amended): a chat message of a sender that has a record is
    handed to [broadcast_to_room] for the room the record names, as
    [{"type": "chat", "from": sender, "username": the sender's display
    name, "message": the text received, "timestamp": ...}], with no
    member excluded.  The members ([members], none when the room is
    gone) are served in the order of the member set.  When every
    connection of the room accepts the write, each member has been sent
    the message, the sender among them when it is stored in that room;
    the registry is as before and the session goes on.  When a
    connection refuses, the members before it have been sent the
    message, it and the members after it have not, and the handler
    runs [disconnect] for the sender and closes the session.  In a
    registry whose rooms share no connection, no connection stored in
    another room is written to. *)
Theorem chat_fans_out_in_own_room tr ws c fields info w :
  client_info (manager w) !! c = Some info →
  field "type" fields = JStr "chat" →
  let members := default [] (active_rooms (manager w) !! room info) in
  let msg := [("type", JStr "chat"); ("from", JStr c);
              ("username", name info);
              ("message", field "message" fields);
              ("timestamp", JStr (isoformat_now tr (ticks w)))] in
  (all_up tr members = true →
   step tr ws c Active (Message (JObj fields)) w
   = Some (Active,
           {| manager := manager w;
              wire := wire w ++ fanout msg members;
              ticks := S (ticks w) |}))
  ∧ (all_up tr members = false →
     step tr ws c Active (Message (JObj fields)) w
     = Some (Closed,
             (disconnect tr c
                {| manager := manager w;
                   wire := wire w ++ fanout msg (reached tr members);
                   ticks := S (ticks w) |}).2))
  ∧ (∀ c' ws', socket_of (manager w) (room info) c' = Some ws' →
               (ws', msg) ∈ fanout msg members)
  ∧ (∀ ws0, seat_of (manager w) c = Some ws0 →
            (ws0, msg) ∈ fanout msg members)
  ∧ (sockets_apart (manager w) →
     ∀ r' c' ws', r' ≠ room info →
                  socket_of (manager w) r' c' = Some ws' →
                  (ws', msg) ∉ fanout msg members).
Proof.
  intros Hi Hty. cbv zeta.
  rewrite step_active_settle, dispatch_chat by done. rewrite Hi.
  rewrite broadcast_to_room_eq. cbn [manager].
  assert (Hin : ∀ c' ws',
             socket_of (manager w) (room info) c' = Some ws' →
             ∃ members, active_rooms (manager w) !! room info = Some members
                        ∧ (c', ws') ∈ members).
  { intros c' ws'. unfold socket_of.
    destruct (active_rooms (manager w) !! room info) as [members|]; [|done].
    cbn. intros H%get_elem_of. eauto. }
  assert (Hmine : ∀ c' ws',
             socket_of (manager w) (room info) c' = Some ws' →
             (ws', chat c (name info) (field "message" fields)
                     (isoformat_now tr (ticks w)))
             ∈ fanout (chat c (name info) (field "message" fields)
                         (isoformat_now tr (ticks w)))
                 (default [] (active_rooms (manager w) !! room info))).
  { intros c' ws' (members & -> & H)%Hin. apply elem_of_fanout. eauto. }
  split; [|split; [|split; [|split]]].
  - destruct (active_rooms (manager w) !! room info) as [members|];
      cbv [default from_option id].
    + rewrite recipients_None. intros Hup.
      rewrite Hup, reached_all_up by done. reflexivity.
    + intros _. cbn. by rewrite app_nil_r.
  - destruct (active_rooms (manager w) !! room info) as [members|];
      cbv [default from_option id]; [|done].
    rewrite recipients_None. intros ->. reflexivity.
  - exact Hmine.
  - intros ws0 (info' & Hi' & Hws0)%seat_of_record.
    rewrite Hi in Hi'. injection Hi' as <-. by eapply Hmine.
  - intros Ha r' c' ws' Hne Hws' Hsent.
    destruct (active_rooms (manager w) !! room info) as [members|] eqn:Er;
      cbv [default from_option id] in Hsent; [|by apply elem_of_nil in Hsent].
    apply elem_of_fanout in Hsent as [c0 Hc0].
    unfold socket_of in Hws'.
    destruct (active_rooms (manager w) !! r') as [l'|] eqn:Er'; [|done].
    cbn in Hws'. apply get_elem_of in Hws'.
    apply Hne. by eapply (sockets_apart_elem _ r' (room info)).
Qed.

Lemma chat_fans_out_in_own_room_witness :
  step calm 1 "c1" Active
    (Message (JObj [("type", JStr "chat"); ("message", JStr "hi")]))
    two_rooms
  = Some (Active,
          {| manager := manager two_rooms;
             wire := wire two_rooms ++
                     [(1, [("type", JStr "chat"); ("from", JStr "c1");
                           ("username", JStr "alice");
                           ("message", JStr "hi");
                           ("timestamp",
                            JStr (isoformat_now calm (ticks two_rooms)))]);
                      (2, [("type", JStr "chat"); ("from", JStr "c1");
                           ("username", JStr "alice");
                           ("message", JStr "hi");
                           ("timestamp",
                            JStr (isoformat_now calm (ticks two_rooms)))])];
             ticks := S (ticks two_rooms) |}).
Proof.
  destruct (chat_fans_out_in_own_room calm 1 "c1"
              [("type", JStr "chat"); ("message", JStr "hi")]
              {| room := "lobby"; name := JStr "alice";
                 joined_at := isoformat_now calm 0 |} two_rooms)
    as [H _]; [vm_compute; reflexivity|reflexivity|].
  apply H. vm_compute. reflexivity.
Defined.

(** C7 (as stated) fails: [c2] is registered, stored in ["lobby"] and
    its own connection accepts every write, but the connection of
    [c1], which comes first in the room, refuses.  The chat of [c2]
    reaches nobody, [c2] included, and ends the session of [c2]. *)
Lemma chat_not_echoed_when_room_mate_refuses :
  seated (manager lobby) "c2"
  ∧ send_fails (down 1) 2 = false
  ∧ ∃ w',
      step (down 1) 2 "c2" Active
        (Message (JObj [("type", JStr "chat"); ("message", JStr "hi")]))
        lobby = Some (Closed, w')
      ∧ wire w' = wire lobby.
Proof.
  split; [apply (bool_decide_unpack _); vm_compute; reflexivity|].
  split; [reflexivity|].
  eexists. split; vm_compute; reflexivity.
Qed.

(** ** Joining a room that has members *)

Lemma existing_users_of_None (infos : gmap string ClientInfo) cids :
  Exists (λ cid, infos !! cid = None) cids →
  existing_users_of infos cids = None.
Proof.
  unfold existing_users_of. induction 1 as [cid l E|cid l _ IH]; cbn.
  - by rewrite E.
  - rewrite IH. by destruct (infos !! cid).
Qed.

(** C6 (as amended): let [a] be in the member set of room [r] and [b]
    another client id that joins [r].  The members addressed by the
    announcement ([others]) are the entries of the member set other
    than [b]'s, in order: [a]'s entry is among them and none is [b]'s.
    The announcement is [{"type": "user_joined", "client_id": b,
    "username": ..., "timestamp": ...}] and the confirmation is
    [{"type": "room_joined", "room_id": r, "client_id": b,
    "existing_users": ..., "timestamp": ...}], whose [existing_users]
    lists id and display name of each of [others], [a]'s among them
    and none for [b].  A refused handshake ends the join with nothing
    done.  After the handshake, with [b] stored in the room and
    recorded: when one of [others] refuses the announcement, those
    before it have received it, it and those after it have not, no
    confirmation is sent and the join raises; when all accept it but
    one of [others] has no record, the join raises [KeyError] before
    the confirmation; when all accept it and all have records, the
    confirmation is written to the joining connection, and the join
    returns if that write is accepted and raises if it is refused. *)
Theorem connect_announces_then_lists tr ws a b r username wsa members w :
  active_rooms (manager w) !! r = Some members →
  Dict.get a members = Some wsa →
  a ≠ b →
  let others := recipients (Some b) members in
  let notice := [("type", JStr "user_joined"); ("client_id", JStr b);
                 ("username", username);
                 ("timestamp", JStr (isoformat_now tr (S (ticks w))))] in
  let existing :=
    map (λ p, JObj [("client_id", JStr p.1);
                    ("username", name_of (manager w) p.1)]) others in
  let confirmation :=
    [("type", JStr "room_joined"); ("room_id", JStr r);
     ("client_id", JStr b); ("existing_users", JArr existing);
     ("timestamp", JStr (isoformat_now tr (S (S (ticks w)))))] in
  let m' := seat ws b r username (isoformat_now tr (ticks w)) (manager w) in
  ((a, wsa) ∈ others
   ∧ (∀ c' ws', (c', ws') ∈ members → c' ≠ b → (c', ws') ∈ others)
   ∧ (∀ ws', (b, ws') ∉ others)
   ∧ (wsa, notice) ∈ fanout notice others
   ∧ (ws ∉ others.*2 → (ws, notice) ∉ fanout notice others)
   ∧ JObj [("client_id", JStr a); ("username", name_of (manager w) a)]
     ∈ existing
   ∧ (∀ n, JObj [("client_id", JStr b); ("username", n)] ∉ existing))
  ∧ (accept_fails tr ws = true →
     connect tr ws b r username w = (Raise RuntimeError, w))
  ∧ (accept_fails tr ws = false →
     all_up tr others = false →
     connect tr ws b r username w
     = (Raise RuntimeError,
        {| manager := m';
           wire := wire w ++ fanout notice (reached tr others);
           ticks := S (S (ticks w)) |}))
  ∧ (accept_fails tr ws = false →
     all_up tr others = true →
     Exists (λ p, client_info (manager w) !! p.1 = None) others →
     connect tr ws b r username w
     = (Raise KeyError,
        {| manager := m';
           wire := wire w ++ fanout notice others;
           ticks := S (S (ticks w)) |}))
  ∧ (accept_fails tr ws = false →
     all_up tr others = true →
     Forall (λ p, registered (manager w) p.1) others →
     connect tr ws b r username w
     = if send_fails tr ws
       then (Raise RuntimeError,
             {| manager := m';
                wire := wire w ++ fanout notice others;
                ticks := S (S (S (ticks w))) |})
       else (Ok tt,
             {| manager := m';
                wire := (wire w ++ fanout notice others)
                        ++ [(ws, confirmation)];
                ticks := S (S (S (ticks w))) |})).
Proof.
  intros Er Hwsa Hab. cbv zeta.
  assert (Hothers : ∀ c' ws', (c', ws') ∈ members → c' ≠ b →
                      (c', ws') ∈ recipients (Some b) members).
  { intros c' ws' Hin Hne. rewrite recipients_Some.
    apply list_elem_of_filter. by split. }
  assert (Ha : (a, wsa) ∈ recipients (Some b) members).
  { apply Hothers; [|done]. by apply get_elem_of. }
  assert (Hnotb : ∀ ws', (b, ws') ∉ recipients (Some b) members).
  { intros ws' Hin. rewrite recipients_Some in Hin.
    by apply list_elem_of_filter in Hin as [Hne _]. }
  assert (Hout : accept_fails tr ws = false →
            connect tr ws b r username w
            = let others := recipients (Some b) members in
              let announced :=
                fanout (user_joined b username (isoformat_now tr (S (ticks w))))
                       (reached tr others) in
              let m' := seat ws b r username (isoformat_now tr (ticks w))
                             (manager w) in
              if all_up tr others then
                match existing_users_of (client_info (manager w))
                        (Dict.keys others) with
                | None =>
                    (Raise KeyError,
                     {| manager := m'; wire := wire w ++ announced;
                        ticks := S (S (ticks w)) |})
                | Some existing =>
                    if send_fails tr ws then
                      (Raise RuntimeError,
                       {| manager := m'; wire := wire w ++ announced;
                          ticks := S (S (S (ticks w))) |})
                    else
                      (Ok tt,
                       {| manager := m';
                          wire := (wire w ++ announced) ++
                                  [(ws, room_joined r b existing
                                          (isoformat_now tr (S (S (ticks w)))))];
                          ticks := S (S (S (ticks w))) |})
                end
              else
                (Raise RuntimeError,
                 {| manager := m'; wire := wire w ++ announced;
                    ticks := S (S (ticks w)) |})).
  { intros Hacc. rewrite connect_eq.
    unfold connect_outcome, joined_outcome, seated_members.
    rewrite Hacc, Er. cbv zeta. cbv [default from_option id].
    rewrite (recipients_Some b (Dict.set b ws members)), filter_set_other.
    rewrite <- recipients_Some.
    rewrite keys_filter_ne, filter_set_other, <- recipients_Some.
    unfold seat at 2. cbn [client_info].
    rewrite (existing_users_of_ext (client_info (manager w))); [done|].
    apply Forall_forall. intros cid Hcid. unfold Dict.keys in Hcid.
    apply list_elem_of_fmap in Hcid as [[c' ws'] [-> Hin]]. cbn.
    rewrite lookup_insert_ne; [done|]. intros <-. by apply (Hnotb ws'). }
  split; [|split; [|split; [|split]]].
  - split; [done|]. split; [done|]. split; [done|].
    split; [|split; [|split]].
    + apply elem_of_fanout. by exists a.
    + intros Hfresh Hin. apply elem_of_fanout in Hin as [c' Hin].
      apply Hfresh. apply list_elem_of_fmap. by exists (c', ws).
    + apply list_elem_of_fmap. by exists (a, wsa).
    + intros n Hin. apply list_elem_of_fmap in Hin as [[c' ws'] [E Hin]].
      injection E as <- _. by apply (Hnotb ws').
  - intros Hacc. rewrite connect_eq. unfold connect_outcome. by rewrite Hacc.
  - intros Hacc Hup. rewrite (Hout Hacc). cbv zeta. by rewrite Hup.
  - intros Hacc Hup Hex. rewrite (Hout Hacc). cbv zeta. rewrite Hup.
    rewrite reached_all_up by done.
    rewrite existing_users_of_None; [done|].
    unfold Dict.keys. apply Exists_exists in Hex as [p [Hp Hnone]].
    apply Exists_exists. exists p.1. split; [|done].
    apply list_elem_of_fmap. by exists p.
  - intros Hacc Hup Hall. rewrite (Hout Hacc). cbv zeta. rewrite Hup.
    rewrite reached_all_up by done.
    rewrite existing_users_of_Some.
    2:{ unfold Dict.keys. apply Forall_forall. intros cid Hcid.
        apply list_elem_of_fmap in Hcid as [p [-> Hp]].
        rewrite Forall_forall in Hall. by apply Hall. }
    unfold Dict.keys, room_joined, existing_user, name_of.
    by rewrite map_map.
Qed.

(** The scenario of the specification: alice is in ["lobby"], bob
    joins, and every connection accepts what it is sent. *)
Lemma connect_announces_then_lists_witness :
  connect calm 2 "c2" "lobby" (JStr "bob") solo
  = (Ok tt,
     {| manager := seat 2 "c2" "lobby" (JStr "bob")
                        (isoformat_now calm (ticks solo)) (manager solo);
        wire := (wire solo ++
                 [(1, [("type", JStr "user_joined"); ("client_id", JStr "c2");
                       ("username", JStr "bob");
                       ("timestamp",
                        JStr (isoformat_now calm (S (ticks solo))))])])
                ++ [(2, [("type", JStr "room_joined");
                         ("room_id", JStr "lobby");
                         ("client_id", JStr "c2");
                         ("existing_users",
                          JArr [JObj [("client_id", JStr "c1");
                                      ("username", JStr "alice")]]);
                         ("timestamp",
                          JStr (isoformat_now calm (S (S (ticks solo)))))])];
        ticks := S (S (S (ticks solo))) |}).
Proof.
  destruct (connect_announces_then_lists calm 2 "c1" "c2" "lobby" (JStr "bob")
              1 [("c1", 1)] solo)
    as (_ & _ & _ & _ & H);
    [vm_compute; reflexivity|reflexivity|discriminate|].
  apply H; [reflexivity|reflexivity|].
  apply (bool_decide_unpack _). vm_compute. reflexivity.
Defined.

(** C6 (as stated) fails: [c1] and [c2] are in ["lobby"] and [c3]
    joins.  With the connection of [c1] refusing the announcement,
    [c2], whose connection accepts every write, is sent no
    [user_joined], and [c3] is sent no [room_joined]: nothing at all is
    written, and the join raises.  And in [stale_entry], where the
    member [c1] of ["lobby"] has no record, the join of [c3] raises
    [KeyError] after the announcement, with every connection accepting
    its writes: [c3] is sent no [room_joined]. *)
Lemma connect_refused_announcement_ends_join :
  (in_room (manager lobby) "c2" "lobby"
   ∧ send_fails (down 1) 2 = false
   ∧ send_fails (down 1) 3 = false
   ∧ (connect (down 1) 3 "c3" "lobby" (JStr "carol") lobby).1
     = Raise RuntimeError
   ∧ wire (connect (down 1) 3 "c3" "lobby" (JStr "carol") lobby).2
     = wire lobby)
  ∧ (in_room (manager stale_entry) "c1" "lobby"
     ∧ (connect calm 3 "c3" "lobby" (JStr "carol") stale_entry).1
       = Raise KeyError
     ∧ wire (connect calm 3 "c3" "lobby" (JStr "carol") stale_entry).2
       = wire stale_entry ++
         [(1, [("type", JStr "user_joined"); ("client_id", JStr "c3");
               ("username", JStr "carol");
               ("timestamp",
                JStr (isoformat_now calm (S (ticks stale_entry))))])]).
Proof.
  split.
  - split; [apply (bool_decide_unpack _); vm_compute; reflexivity|].
    split; [reflexivity|]. split; [reflexivity|].
    split; vm_compute; reflexivity.
  - split; [apply (bool_decide_unpack _); vm_compute; reflexivity|].
    split; vm_compute; reflexivity.
Qed.
